(** * Enrichment scheduler of the news summary service (app.py)

    A shallow embedding of the SQLite-backed item store, the freshness
    controller, the paginated query route, the in-memory priority queue and
    the background summarizer loop, followed by the properties of the
    natural-language specification that can be stated over them.

    Modelling conventions.
    - The [articles] table is the list of its rows in rowid order, with the
      AUTOINCREMENT counter next to it.  Every SQL statement of the source is
      one function on that table.
    - [time.time()] readings and the REAL column [fetch_timestamp] are
      integers (seconds); only their order and differences are used.
    - A Python [str] is the [string] of its UTF-8 bytes; white space and
      decimal digits are those of Unicode 14.0.0 (CPython 3.11).
    - The feed parser and the summarization backend are outside the
      repository: their outcome at a call is an input of the model.
    - An exception that leaves a function is the result [Raised]. *)

From Stdlib Require Import List String Ascii ZArith Bool Lia.
Import ListNotations.
Open Scope Z_scope.

(** ** Python built-ins *)

(** A [str] is held as the bytes of its UTF-8 encoding. *)
Definition byte (c : ascii) : N := N_of_ascii c.

(** [str.isspace] on the ASCII range: TAB..CR, FS..US and SPACE. *)
Definition is_py_space (c : ascii) : bool :=
  let n := nat_of_ascii c in
  ((9 <=? n)%nat && (n <=? 13)%nat) || ((28 <=? n)%nat && (n <=? 32)%nat).

(** The two-byte white space of [str]: U+0085 and U+00A0 (C2 85, C2 A0). *)
Definition is_py_space2 (b1 b2 : ascii) : bool :=
  (N.eqb (byte b2) 133 || N.eqb (byte b2) 160)%N && N.eqb (byte b1) 194.

(** The three-byte white space of [str]: U+1680 (E1 9A 80), U+2000..U+200A,
    U+2028, U+2029, U+202F (E2 80 xx), U+205F (E2 81 9F), U+3000 (E3 80 80). *)
Definition is_py_space3 (b1 b2 b3 : ascii) : bool :=
  let n1 := byte b1 in
  let n2 := byte b2 in
  let n3 := byte b3 in
  (((n3 =? 128) && (n2 =? 154) && (n1 =? 225))
   || ((((128 <=? n3) && (n3 <=? 138)) || (n3 =? 168) || (n3 =? 169) || (n3 =? 175))
       && (n2 =? 128) && (n1 =? 226))
   || ((n3 =? 159) && (n2 =? 129) && (n1 =? 226))
   || ((n3 =? 128) && (n2 =? 128) && (n1 =? 227)))%N.

(** [s.lstrip()]: the white space characters at the front are dropped. *)
Fixpoint lstrip (s : string) : string :=
  match s with
  | EmptyString => EmptyString
  | String b1 r1 =>
      if is_py_space b1 then lstrip r1
      else
        match r1 with
        | EmptyString => s
        | String b2 r2 =>
            if is_py_space2 b1 b2 then lstrip r2
            else
              match r2 with
              | EmptyString => s
              | String b3 r3 => if is_py_space3 b1 b2 b3 then lstrip r3 else s
              end
        end
  end.

(** [s.rstrip()]: the text is cut where only white space follows. *)
Fixpoint rstrip (s : string) : string :=
  match s with
  | EmptyString => EmptyString
  | String b r =>
      match lstrip s with
      | EmptyString => EmptyString
      | String _ _ => String b (rstrip r)
      end
  end.

(** [s.strip()] *)
Definition strip (s : string) : string := rstrip (lstrip s).

(** [needle in hay] for two [str] values. *)
Fixpoint contains (needle hay : string) : bool :=
  String.prefix needle hay ||
  match hay with
  | EmptyString => false
  | String _ hay' => contains needle hay'
  end.

Definition is_continuation (c : ascii) : bool :=
  ((128 <=? byte c) && (byte c <? 192))%N.

(** The code points of a text; a byte that starts no well-formed sequence
    reads as U+FFFD. *)
Fixpoint code_points (s : string) : list N :=
  match s with
  | EmptyString => []
  | String b1 r1 =>
      let n1 := byte b1 in
      if (n1 <? 128)%N then n1 :: code_points r1
      else
        match r1 with
        | EmptyString => [65533%N]
        | String b2 r2 =>
            if ((192 <=? n1) && (n1 <? 224))%N && is_continuation b2
            then ((n1 - 192) * 64 + (byte b2 - 128))%N :: code_points r2
            else
              match r2 with
              | EmptyString => 65533%N :: code_points r1
              | String b3 r3 =>
                  if ((224 <=? n1) && (n1 <? 240))%N
                     && is_continuation b2 && is_continuation b3
                  then ((n1 - 224) * 4096 + (byte b2 - 128) * 64
                        + (byte b3 - 128))%N :: code_points r3
                  else
                    match r3 with
                    | EmptyString => 65533%N :: code_points r1
                    | String b4 r4 =>
                        if ((240 <=? n1) && (n1 <? 248))%N
                           && is_continuation b2 && is_continuation b3
                           && is_continuation b4
                        then ((n1 - 240) * 262144 + (byte b2 - 128) * 4096
                              + (byte b3 - 128) * 64 + (byte b4 - 128))%N
                             :: code_points r4
                        else 65533%N :: code_points r1
                    end
              end
        end
  end.

(** [Py_UNICODE_ISSPACE] beyond ASCII. *)
Definition is_unicode_space (c : N) : bool :=
  ((c =? 133) || (c =? 160) || (c =? 5760)
   || ((8192 <=? c) && (c <=? 8202))
   || (c =? 8232) || (c =? 8233) || (c =? 8239) || (c =? 8287) || (c =? 12288))%N.

(** The digit zero of each run of ten decimal digits of Unicode 14.0.0 (the
    table of CPython 3.11). *)
Definition UNICODE_DECIMAL_ZEROS : list N :=
  [48; 1632; 1776; 1984; 2406; 2534; 2662; 2790; 2918; 3046; 3174; 3302; 3430;
   3558; 3664; 3792; 3872; 4160; 4240; 6112; 6160; 6470; 6608; 6784; 6800; 6992;
   7088; 7232; 7248; 42528; 43216; 43264; 43472; 43504; 43600; 44016; 65296;
   66720; 68912; 69734; 69872; 69942; 70096; 70384; 70736; 70864; 71248; 71360;
   71472; 71904; 72016; 72784; 73040; 73120; 92768; 92864; 93008; 120782; 120792;
   120802; 120812; 120822; 123200; 123632; 125264; 130032]%N.

(** [Py_UNICODE_TODECIMAL] *)
Definition unicode_decimal (c : N) : option N :=
  option_map (fun z => (c - z)%N)
             (find (fun z => ((z <=? c) && (c <? z + 10))%N) UNICODE_DECIMAL_ZEROS).

(** What [int] reads for a character: itself below 127, a space for white
    space, the ASCII digit of a decimal digit, and [?] for anything else. *)
Definition int_char (c : N) : N :=
  if (c <? 127)%N then c
  else if is_unicode_space c then 32%N
  else match unicode_decimal c with
       | Some d => (48 + d)%N
       | None => 63%N
       end.

(** The white space [int] skips around the numeral (C's [isspace]). *)
Definition is_c_space (c : N) : bool :=
  (((9 <=? c) && (c <=? 13)) || (c =? 32))%N.

Definition is_ascii_digit (c : N) : bool := ((48 <=? c) && (c <=? 57))%N.

(** The characters that can occur in a text [int] accepts. *)
Definition is_int_char (c : N) : bool :=
  (is_ascii_digit c || is_c_space c || (c =? 43) || (c =? 45) || (c =? 95))%N.

(** CPython's default limit on the digits of a numeral. *)
Definition INT_MAX_STR_DIGITS : nat := 4300.

(** Where the scan of a numeral stands. *)
Inductive int_scan : Type :=
| ScanStart
| ScanSigned (negative : bool)
| ScanDigits (negative : bool) (acc : Z) (digits : nat) (after_underscore : bool)
| ScanTrailing (negative : bool) (acc : Z) (digits : nat)
| ScanFail.

Definition scan_step (st : int_scan) (c : N) : int_scan :=
  let d := Z.of_N (c - 48) in
  match st with
  | ScanStart =>
      if is_c_space c then ScanStart
      else if (c =? 43)%N then ScanSigned false
      else if (c =? 45)%N then ScanSigned true
      else if is_ascii_digit c then ScanDigits false d 1 false
      else ScanFail
  | ScanSigned neg =>
      if is_ascii_digit c then ScanDigits neg d 1 false else ScanFail
  | ScanDigits neg acc n us =>
      if is_ascii_digit c then ScanDigits neg (10 * acc + d) (S n) false
      else if (c =? 95)%N then (if us then ScanFail else ScanDigits neg acc n true)
      else if is_c_space c then (if us then ScanFail else ScanTrailing neg acc n)
      else ScanFail
  | ScanTrailing neg acc n =>
      if is_c_space c then ScanTrailing neg acc n else ScanFail
  | ScanFail => ScanFail
  end.

Definition scan_result (st : int_scan) : option Z :=
  match st with
  | ScanDigits neg acc n false | ScanTrailing neg acc n =>
      if (n <=? INT_MAX_STR_DIGITS)%nat
      then Some (if neg then - acc else acc)
      else None
  | _ => None
  end.

(** [int(s)] in base ten; [None] stands for [ValueError]. *)
Definition py_int (s : string) : option Z :=
  scan_result (fold_left scan_step (map int_char (code_points s)) ScanStart).

(** Normalisation of one slice bound against a sequence length. *)
Definition slice_bound (len i : Z) : Z :=
  if i <? 0 then Z.max 0 (i + len) else Z.min i len.

(** [l[start:stop]] *)
Definition py_slice {A : Type} (l : list A) (start stop : Z) : list A :=
  let len := Z.of_nat (List.length l) in
  let lo := slice_bound len start in
  let hi := slice_bound len stop in
  firstn (Z.to_nat (hi - lo)) (skipn (Z.to_nat lo) l).

(** Result of a call that may raise. *)
Inductive result (A : Type) : Type :=
| Ok (a : A)
| Raised.
Arguments Ok {A} a.
Arguments Raised {A}.

(** ** Config *)

Definition PAGE_SIZE : Z := 6.
Definition FEED_FETCH_COUNT : nat := 30.
Definition CACHE_EXPIRATION_SECONDS : Z := 900.

(** ** The articles table *)

(** The four literals the program ever writes to the [status] column. *)
Inductive enrich_status : Type := pending | in_progress | done | error.

Definition status_eqb (s t : enrich_status) : bool :=
  match s, t with
  | pending, pending | in_progress, in_progress | done, done | error, error => true
  | _, _ => false
  end.

(** One row; nullable TEXT columns are options. *)
Record article : Type := mkArticle {
  id : Z;
  link : string;
  title : string;
  source : option string;
  summary_original : option string;
  image_url : option string;
  ai_summary : option string;
  status : enrich_status;
  topic : string;
  fetch_timestamp : Z
}.

(** Rows in rowid order and the AUTOINCREMENT counter ([sqlite_sequence]):
    the last rowid drawn.  The program never writes an id itself, so no row
    has an id above it. *)
Record table : Type := mkTable {
  rows : list article;
  sqlite_sequence : Z
}.

Definition empty_table : table := mkTable [] 0.

Definition set_status (s : enrich_status) (a : article) : article :=
  mkArticle (id a) (link a) (title a) (source a) (summary_original a)
            (image_url a) (ai_summary a) s (topic a) (fetch_timestamp a).

Definition set_status_summary (s : enrich_status) (txt : string) (a : article) : article :=
  mkArticle (id a) (link a) (title a) (source a) (summary_original a)
            (image_url a) (Some txt) s (topic a) (fetch_timestamp a).

(** [DELETE FROM articles WHERE topic = ?] *)
Definition delete_topic (key : string) (d : table) : table :=
  mkTable (filter (fun a => negb (String.eqb (topic a) key)) (rows d))
          (sqlite_sequence d).

Definition has_link (l : string) (d : table) : bool :=
  existsb (fun a => String.eqb (link a) l) (rows d).

(** [INSERT OR IGNORE INTO articles (link, title, source, summary_original,
    image_url, status, topic, fetch_timestamp) VALUES ...].  AUTOINCREMENT
    draws the next rowid from the counter for every INSERT; the UNIQUE
    constraint on [link] then drops the row of a link the table holds, and
    the rowid drawn for it is never used. *)
Definition insert_or_ignore (l t : string) (src sum img : option string)
    (s : enrich_status) (tp : string) (ts : Z) (d : table) : table :=
  let i := sqlite_sequence d + 1 in
  if has_link l d then mkTable (rows d) i
  else mkTable (rows d ++ [mkArticle i l t src sum img None s tp ts]) i.

(** [SELECT * FROM articles WHERE topic = ? ORDER BY id DESC] *)
Definition select_topic_desc (key : string) (d : table) : list article :=
  rev (filter (fun a => String.eqb (topic a) key) (rows d)).

(** [SELECT fetch_timestamp FROM articles WHERE topic = ? ORDER BY id DESC LIMIT 1] *)
Definition latest_fetch_timestamp (key : string) (d : table) : option Z :=
  option_map fetch_timestamp (hd_error (select_topic_desc key d)).

(** [SELECT * FROM articles WHERE link = ? AND status = 'pending'] *)
Definition select_pending_by_link (l : string) (d : table) : option article :=
  find (fun a => String.eqb (link a) l && status_eqb (status a) pending) (rows d).

(** [SELECT * FROM articles WHERE status = 'pending' LIMIT 1] (table scan). *)
Definition select_any_pending (d : table) : option article :=
  find (fun a => status_eqb (status a) pending) (rows d).

Definition update_where_id (f : article -> article) (i : Z) (d : table) : table :=
  mkTable (map (fun a => if id a =? i then f a else a) (rows d))
          (sqlite_sequence d).

(** [UPDATE articles SET status = 'in_progress' WHERE id = ?] *)
Definition mark_in_progress (i : Z) (d : table) : table :=
  update_where_id (set_status in_progress) i d.

(** [UPDATE articles SET status = ?, ai_summary = ? WHERE id = ?] *)
Definition store_outcome (s : enrich_status) (txt : string) (i : Z) (d : table) : table :=
  update_where_id (set_status_summary s txt) i d.

(** [UPDATE articles SET status = 'pending' WHERE status = 'in_progress'] *)
Definition reset_in_progress (d : table) : table :=
  mkTable (map (fun a => if status_eqb (status a) in_progress
                         then set_status pending a else a) (rows d))
          (sqlite_sequence d).

(** Status of the row with a given id, if the table has one. *)
Definition status_at (i : Z) (d : table) : option enrich_status :=
  option_map status (find (fun a => id a =? i) (rows d)).

Definition row_at (i : Z) (d : table) : option article :=
  find (fun a => id a =? i) (rows d).

(** What the schema and AUTOINCREMENT maintain: distinct ids, none above the
    counter, and distinct links. *)
Definition wf_table (d : table) : Prop :=
  NoDup (map id (rows d)) /\
  NoDup (map link (rows d)) /\
  Forall (fun a => id a <= sqlite_sequence d) (rows d).

(** ** The feed (external) *)

(** One parsed feed entry.  An absent attribute is [None]: reading it raises
    [AttributeError].  [entry_source] is [None] when ['source' in entry] is
    false, and holds the outcome of [entry.source.title] otherwise;
    [entry_media_content] lists the [url] key of each media item. *)
Record entry : Type := mkEntry {
  entry_link : option string;
  entry_title : option string;
  entry_summary : option string;
  entry_source : option (option string);
  entry_media_content : option (list (option string))
}.

(** Outcome of [feedparser.parse(rss_url)].  The parser reports transport
    and syntax errors through the [bozo] flag of the object it returns,
    with whatever entries it could read; it can also raise. *)
Inductive feed_outcome : Type :=
| ParseRaised
| Parsed (bozo : bool) (entries : list entry).

(** The fetch capability failed: it raised, or flagged what it returned. *)
Definition fetch_failed (f : feed_outcome) : bool :=
  match f with
  | ParseRaised => true
  | Parsed bozo _ => bozo
  end.

(** The values bound by lines 82-87 for one entry, in column order
    (link, title, source, summary_original, image_url). *)
Definition entry_values (e : entry)
  : result (string * string * option string * option string * option string) :=
  let src :=
    match entry_source e with
    | None => Ok (Some "Unknown Source"%string)
    | Some (Some t) => Ok (Some t)
    | Some None => Raised
    end in
  let img :=
    match entry_media_content e with
    | Some (m :: _) => m
    | _ => None
    end in
  match src, entry_link e, entry_title e, entry_summary e with
  | Ok s, Some l, Some t, Some sm => Ok (l, t, s, Some sm, img)
  | _, _, _, _ => Raised
  end.

(** The insertion loop; [clock k] is the reading of [time.time()] in the
    k-th iteration. *)
Fixpoint insert_entries (cache_key : string) (clock : nat -> Z) (k : nat)
    (es : list entry) (d : table) : result table :=
  match es with
  | [] => Ok d
  | e :: es' =>
      match entry_values e with
      | Raised => Raised
      | Ok (l, t, src, sm, img) =>
          insert_entries cache_key clock (S k) es'
            (insert_or_ignore l t src sm img pending cache_key (clock k) d)
      end
  end.

(** [fetch_and_cache_news].  The DELETE and the INSERTs run in one
    transaction of the function's own connection; it is committed at line 88
    only, so an exception before that leaves the table as it was when
    [conn.close()] runs in the [finally] clause. *)
Definition fetch_and_cache_news (cache_key : string) (clock : nat -> Z)
    (feed : feed_outcome) (d : table) : table * result (list article) :=
  match feed with
  | ParseRaised => (d, Raised)
  | Parsed _ entries =>
      match insert_entries cache_key clock 0 (firstn FEED_FETCH_COUNT entries)
                           (delete_topic cache_key d) with
      | Raised => (d, Raised)
      | Ok d' => (d', Ok (firstn FEED_FETCH_COUNT (select_topic_desc cache_key d')))
      end
  end.

(** ** Priority queue *)

(** The [for article in paginated_articles] loop of lines 134-136. *)
Fixpoint mark_on_screen (arts : list article) (q : list string) : list string :=
  match arts with
  | [] => q
  | a :: rest =>
      if status_eqb (status a) pending
         && negb (existsb (String.eqb (link a)) q)
      then mark_on_screen rest (q ++ [link a])
      else mark_on_screen rest q
  end.

(** Lines 128-136: page 1 clears the queue first. *)
Definition update_priority_queue (page : Z) (arts : list article)
    (q : list string) : list string :=
  mark_on_screen arts (if page =? 1 then [] else q).

(** Lines 152-154: [popleft] guarded by the emptiness test. *)
Definition pop_priority (q : list string) : option string * list string :=
  match q with
  | [] => (None, [])
  | l :: q' => (Some l, q')
  end.

(** ** Process state *)

Record state : Type := mkState {
  db : table;
  PRIORITY_QUEUE : list string
}.

Definition initial_state : state := mkState empty_table [].

(** ** The query route *)

(** [request.args.get("page", 1, type=int)]: 1 when the parameter is absent
    or [int] raises [ValueError]. *)
Definition request_page (arg : option string) : Z :=
  match arg with
  | None => 1
  | Some s => match py_int s with Some n => n | None => 1 end
  end.

(** [request.args.get("q", "").strip()], then the default topic. *)
Definition request_cache_key (arg : option string) : string :=
  let query := strip (match arg with Some s => s | None => EmptyString end) in
  match query with
  | EmptyString => "__trending__"%string
  | _ => query
  end.

(** Line 114 *)
Definition is_stale (cache_key : string) (now : Z) (d : table) : bool :=
  match latest_fetch_timestamp cache_key d with
  | None => true
  | Some ts => CACHE_EXPIRATION_SECONDS <? now - ts
  end.

(** Lines 110-120: the article list the page is cut from. *)
Definition load_articles (cache_key : string) (now : Z) (clock : nat -> Z)
    (feed : feed_outcome) (d : table) : table * result (list article) :=
  if is_stale cache_key now d
  then fetch_and_cache_news cache_key clock feed d
  else (d, Ok (select_topic_desc cache_key d)).

(** Lines 122-125 *)
Definition paginate (articles : list article) (page : Z) : list article * bool :=
  let start_index := (page - 1) * PAGE_SIZE in
  let end_index := start_index + PAGE_SIZE in
  (py_slice articles start_index end_index,
   end_index <? Z.of_nat (List.length articles)).

(** [get_news]: the response is the page and [has_more]; an exception of the
    refresh leaves the route (the framework answers with an error). *)
Definition get_news (q page_arg : option string) (now : Z) (clock : nat -> Z)
    (feed : feed_outcome) (st : state) : state * result (list article * bool) :=
  let page := request_page page_arg in
  let cache_key := request_cache_key q in
  match load_articles cache_key now clock feed (db st) with
  | (d', Raised) => (mkState d' (PRIORITY_QUEUE st), Raised)
  | (d', Ok articles) =>
      let (paginated_articles, has_more) := paginate articles page in
      (mkState d' (update_priority_queue page paginated_articles (PRIORITY_QUEUE st)),
       Ok (paginated_articles, has_more))
  end.

(** ** The summarizer *)

Definition newline : string := String (ascii_of_nat 10) EmptyString.

(** The f-string of lines 175-178; a NULL column formats as [None]. *)
Definition build_prompt (a : article) : string :=
  ("You are an expert news analyst. Summarize the following Indian news article "
   ++ "in 2-3 concise, insightful sentences:" ++ newline ++ newline
   ++ "Title: " ++ title a ++ newline
   ++ "Content: "
   ++ match summary_original a with Some s => s | None => "None" end)%string.

(** [get_ai_summary].  [backend prompt] is the text the configured provider
    answers with, [None] when anything in the [try] block raises. *)
Definition get_ai_summary (AI_PROVIDER : string) (backend : string -> option string)
    (prompt : string) : string :=
  match backend prompt with
  | Some text => strip text
  | None =>
      ("Error: AI summarization failed. Provider: " ++ AI_PROVIDER ++ ".")%string
  end.

(** Lines 150-166: the queue head first, when it names a pending row, else
    any pending row.  An empty link is falsy at line 156. *)
Definition select_article (st : state) : option article * state :=
  let (priority_link, q') := pop_priority (PRIORITY_QUEUE st) in
  let by_hint :=
    match priority_link with
    | Some l =>
        if String.eqb l EmptyString then None
        else select_pending_by_link l (db st)
    | None => None
    end in
  let pending_article :=
    match by_hint with
    | Some a => Some a
    | None => select_any_pending (db st)
    end in
  (pending_article, mkState (db st) q').

(** Lines 172-173 *)
Definition claim (a : article) (st : state) : state :=
  mkState (mark_in_progress (id a) (db st)) (PRIORITY_QUEUE st).

(** Lines 181-185 *)
Definition finalize (a : article) (summary : string) (st : state) : state :=
  let s := if contains "Error:" summary then error else done in
  mkState (store_outcome s summary (id a) (db st)) (PRIORITY_QUEUE st).

(** What one pass of the loop did before it sleeps. *)
Inductive pass_outcome : Type :=
| Summarized (i : Z) (summary : string)
| Idle.

(** One pass of the [while True] body of [background_summarizer]. *)
Definition summarizer_pass (AI_PROVIDER : string) (backend : string -> option string)
    (st : state) : state * pass_outcome :=
  match select_article st with
  | (None, st0) => (st0, Idle)
  | (Some a, st0) =>
      let st1 := claim a st0 in
      let summary := get_ai_summary AI_PROVIDER backend (build_prompt a) in
      (finalize a summary st1, Summarized (id a) summary)
  end.

(** [startup_tasks]: [init_db] keeps an existing table; then the reset. *)
Definition startup_tasks (st : state) : state :=
  mkState (reset_in_progress (db st)) (PRIORITY_QUEUE st).

(** ** Auxiliary notions used in the statements *)

(** Links of the pending rows of a page, in page order. *)
Definition pending_links (arts : list article) : list string :=
  map link (filter (fun a => status_eqb (status a) pending) arts).

(** Rows stored under a topic, in rowid order. *)
Definition topic_rows (key : string) (d : table) : list article :=
  filter (fun a => String.eqb (topic a) key) (rows d).

(** Largest [fetch_timestamp] of a non-empty list of rows. *)
Fixpoint max_fetch_timestamp (a : article) (l : list article) : Z :=
  match l with
  | [] => fetch_timestamp a
  | b :: l' => Z.max (fetch_timestamp a) (max_fetch_timestamp b l')
  end.

(** Timestamps do not decrease along a list of rows. *)
Fixpoint timestamps_ascend (l : list article) : Prop :=
  match l with
  | [] => True
  | a :: l' =>
      Forall (fun b => fetch_timestamp a <= fetch_timestamp b) l'
      /\ timestamps_ascend l'
  end.

(** The operations on the queue, as the two functions that touch it use it. *)
Inductive queue_op : Type :=
| ResetAndMark (arts : list article)
| Append (page : Z) (arts : list article)
| PopFront.

Definition run_queue_op (o : queue_op) (q : list string) : list string :=
  match o with
  | ResetAndMark arts => update_priority_queue 1 arts q
  | Append page arts => update_priority_queue page arts q
  | PopFront => snd (pop_priority q)
  end.

Definition run_queue_ops (ops : list queue_op) (q : list string) : list string :=
  fold_left (fun q o => run_queue_op o q) ops q.

(** The status path of the specification, one step at a time. *)
Definition path_step (s s' : enrich_status) : Prop :=
  (s = pending /\ s' = in_progress) \/
  (s = in_progress /\ (s' = done \/ s' = error)).

(** The refresh raises before its commit: the parser raised, or one of the
    entries it reads lacks an attribute the loop reads. *)
Definition refresh_raises (feed : feed_outcome) : bool :=
  match feed with
  | ParseRaised => true
  | Parsed _ entries =>
      existsb (fun e => match entry_values e with Raised => true | Ok _ => false end)
              (firstn FEED_FETCH_COUNT entries)
  end.

(** The state of a pass of the summarizer once line 173 has committed. *)
Definition after_claim (st : state) : state :=
  match select_article st with
  | (None, st0) => st0
  | (Some a, st0) => claim a st0
  end.

(** ** Sample data *)

(** A well-formed feed entry with the given link. *)
Definition sample_entry (l : string) : entry :=
  mkEntry (Some l) (Some "headline"%string) (Some "excerpt"%string) None None.

(** A table with one fresh pending row under the default topic. *)
Definition one_row_state : state :=
  mkState (mkTable [mkArticle 1 "https://a" "A" None (Some "x"%string) None None
                              pending "__trending__" 1000] 1) [].

(** A pending row hinted by the queue. *)
Definition hinted_state : state :=
  mkState (db one_row_state) ["https://a"%string].

(** The row of [one_row_state], finished by some other writer after a pass
    selected it. *)
Definition finished_state : state :=
  mkState (mkTable [mkArticle 1 "https://a" "A" None (Some "x"%string) None
                              (Some "Done elsewhere."%string)
                              done "__trending__" 1000] 1) [].

(** A row left in_progress by a process that stopped during a pass. *)
Definition crashed_state : state :=
  mkState (mkTable [mkArticle 1 "https://a" "A" None (Some "x"%string) None None
                              in_progress "__trending__" 1000] 1) [].

(** The table after ingesting two entries for topic [t] while the clock is
    set back: it reads 1000 for the first insert and 0 for the second. *)
Definition clock_stepped_back : table :=
  fst (fetch_and_cache_news "t" (fun k => match k with O => 1000 | S _ => 0 end)
         (Parsed false [sample_entry "https://a"; sample_entry "https://b"])
         empty_table).

(** Seven entries ingested for the default topic into an empty table. *)
Definition seven_rows : table :=
  fst (fetch_and_cache_news "__trending__" (fun k => 1000 + Z.of_nat k)
         (Parsed false (map sample_entry
            ["https://1"; "https://2"; "https://3"; "https://4";
             "https://5"; "https://6"; "https://7"]%string))
         empty_table).

(** The items of a response, none when the request raised. *)
Definition served_page (r : result (list article * bool)) : list article :=
  match r with
  | Ok (items, _) => items
  | Raised => []
  end.

(** A session on the default topic over [seven_rows], served from the cache:
    page 1, then page 2. *)
Definition session_page1 : state * result (list article * bool) :=
  get_news None None 1010 (fun _ => 1010) ParseRaised
           (mkState seven_rows ["https://old"%string]).

Definition session_page2 : state * result (list article * bool) :=
  get_news None (Some "2"%string) 1020 (fun _ => 1020) ParseRaised
           (fst session_page1).

(** Three raw items, two of them with the same link, ingested for topic [X]
    into an empty table. *)
Definition three_items : table * result (list article) :=
  fetch_and_cache_news "X" (fun k => 100 + Z.of_nat k)
    (Parsed false [sample_entry "https://a"; sample_entry "https://b";
                   sample_entry "https://a"]) empty_table.

(** ** The feed address *)

(** The characters [urllib.parse.quote] never escapes: ASCII letters, digits
    and [_.-~]. *)
Definition is_always_safe (c : ascii) : bool :=
  let n := nat_of_ascii c in
  (((65 <=? n) && (n <=? 90)) || ((97 <=? n) && (n <=? 122))
   || ((48 <=? n) && (n <=? 57))
   || (n =? 95) || (n =? 46) || (n =? 45) || (n =? 126))%nat.

(** One upper-case hexadecimal digit. *)
Definition hex_digit (n : nat) : ascii :=
  ascii_of_nat (if (n <? 10)%nat then 48 + n else 55 + n).

(** What [quote_plus] writes for one byte of the UTF-8 encoded text: the byte
    itself when it is always safe, [+] for a space, [%XX] otherwise. *)
Definition quote_byte (c : ascii) : string :=
  if is_always_safe c then String c EmptyString
  else if Ascii.eqb c " "%char then String "+"%char EmptyString
  else String "%"%char
         (String (hex_digit (nat_of_ascii c / 16))
            (String (hex_digit (nat_of_ascii c mod 16)) EmptyString)).

(** [urllib.parse.quote_plus(s)], the string read as its UTF-8 bytes. *)
Fixpoint quote_plus (s : string) : string :=
  match s with
  | EmptyString => EmptyString
  | String c s' => (quote_byte c ++ quote_plus s')%string
  end.

(** Lines 74-75 *)
Definition rss_url (cache_key : string) : string :=
  if String.eqb cache_key "__trending__"
  then "https://news.google.com/rss?hl=en-IN&gl=IN&ceid=IN:en"%string
  else ("https://news.google.com/rss/search?q=" ++ quote_plus cache_key
        ++ "&hl=en-IN&gl=IN&ceid=IN:en")%string.

Definition hex_value (c : ascii) : option nat :=
  let n := nat_of_ascii c in
  if ((48 <=? n) && (n <=? 57))%nat then Some (n - 48)%nat
  else if ((65 <=? n) && (n <=? 70))%nat then Some (n - 55)%nat
  else None.

(** Reads back the first quoted byte of a quoted text, with what follows. *)
Definition unquote_head (s : string) : option (ascii * string) :=
  match s with
  | EmptyString => None
  | String c rest =>
      if is_always_safe c then Some (c, rest)
      else if Ascii.eqb c "+"%char then Some (" "%char, rest)
      else if Ascii.eqb c "%"%char then
        match rest with
        | String h (String l rest') =>
            match hex_value h, hex_value l with
            | Some a, Some b => Some (ascii_of_nat (16 * a + b), rest')
            | _, _ => None
            end
        | _ => None
        end
      else None
  end.

(** ** Runs of the process *)

(** The operations of the process, each run to its end before the next. *)
Inductive event : Type :=
| Startup
| Request (q page_arg : option string) (now : Z) (clock : nat -> Z)
          (feed : feed_outcome)
| Pass (backend : string -> option string).

Definition step (AI_PROVIDER : string) (e : event) (st : state) : state :=
  match e with
  | Startup => startup_tasks st
  | Request q page_arg now clock feed => fst (get_news q page_arg now clock feed st)
  | Pass backend => fst (summarizer_pass AI_PROVIDER backend st)
  end.

Definition run (AI_PROVIDER : string) (es : list event) (st : state) : state :=
  fold_left (fun st e => step AI_PROVIDER e st) es st.

(** Consecutive passes of the summarizer, one backend behaviour per pass. *)
Fixpoint run_passes (AI_PROVIDER : string)
    (backends : list (string -> option string)) (st : state) : state :=
  match backends with
  | [] => st
  | b :: bs => run_passes AI_PROVIDER bs (fst (summarizer_pass AI_PROVIDER b st))
  end.

(** ** Further notions used in the statements *)

Definition pending_count (d : table) : nat :=
  List.length (filter (fun a => status_eqb (status a) pending) (rows d)).

(** The columns of a row that ingestion writes once and for all. *)
Definition row_content (a : article)
  : Z * string * string * option string * option string * option string
    * string * Z :=
  (id a, link a, title a, source a, summary_original a, image_url a,
   topic a, fetch_timestamp a).

(** The summary column agrees with the status column. *)
Definition summary_matches_status (a : article) : Prop :=
  match status a with
  | pending | in_progress => ai_summary a = None
  | done => exists s, ai_summary a = Some s /\ contains "Error:" s = false
  | error => exists s, ai_summary a = Some s /\ contains "Error:" s = true
  end.

(** Row ids grow along a list of rows. *)
Fixpoint ids_increase (l : list article) : Prop :=
  match l with
  | [] => True
  | a :: l' => Forall (fun b => id a < id b) l' /\ ids_increase l'
  end.

(** Row ids shrink along a list of rows. *)
Fixpoint ids_decrease (l : list article) : Prop :=
  match l with
  | [] => True
  | a :: l' => Forall (fun b => id b < id a) l' /\ ids_decrease l'
  end.

(** What every operation keeps true of the state. *)
Definition state_invariant (st : state) : Prop :=
  wf_table (db st) /\
  ids_increase (rows (db st)) /\
  Forall summary_matches_status (rows (db st)) /\
  NoDup (PRIORITY_QUEUE st).

(** The pages 1 to [k] of a list, one after the other. *)
Fixpoint pages_upto (k : nat) (articles : list article) : list article :=
  match k with
  | O => []
  | S k' => pages_upto k' articles ++ fst (paginate articles (Z.of_nat k))
  end.

(** * Properties *)

(** ** Generic list facts *)

Lemma existsb_eqb_false_not_In (k : string) (q : list string) :
  existsb (String.eqb k) q = false -> ~ In k q.
Proof.
  intros H Hin.
  assert (existsb (String.eqb k) q = true) as E.
  { apply existsb_exists. exists k. split; [assumption | apply String.eqb_refl]. }
  congruence.
Qed.

Lemma existsb_eqb_true_In (k : string) (q : list string) :
  existsb (String.eqb k) q = true -> In k q.
Proof.
  intros H. apply existsb_exists in H. destruct H as [x [Hx Heq]].
  apply String.eqb_eq in Heq. subst. assumption.
Qed.

Lemma NoDup_snoc {A : Type} (x : A) (l : list A) :
  NoDup l -> ~ In x l -> NoDup (l ++ [x]).
Proof.
  induction 1 as [| y l Hy Hl IH]; intros Hx; simpl.
  - constructor; [intros [] | constructor].
  - constructor.
    + intros Hin. apply in_app_or in Hin. destruct Hin as [Hin | [-> | []]].
      * contradiction.
      * apply Hx. left. reflexivity.
    + apply IH. intros Hin. apply Hx. right. assumption.
Qed.

(** ** Priority queue *)

Lemma mark_on_screen_NoDup (arts : list article) :
  forall q, NoDup q -> NoDup (mark_on_screen arts q).
Proof.
  induction arts as [| a rest IH]; intros q Hq; simpl.
  - assumption.
  - destruct (status_eqb (status a) pending); simpl.
    + destruct (existsb (String.eqb (link a)) q) eqn:E; simpl.
      * apply IH. assumption.
      * apply IH. apply NoDup_snoc; [assumption |].
        apply existsb_eqb_false_not_In. assumption.
    + apply IH. assumption.
Qed.

Lemma status_eqb_eq (s t : enrich_status) : status_eqb s t = true <-> s = t.
Proof. destruct s, t; simpl; split; intros H; congruence. Qed.

(** The loop appends, after the queue it finds, the pending links of the page
    that the queue does not hold yet. *)
Lemma mark_on_screen_appends (arts : list article) :
  forall q, exists added,
    mark_on_screen arts q = q ++ added /\
    forall k, In k added <-> In k (pending_links arts) /\ ~ In k q.
Proof.
  unfold pending_links.
  induction arts as [| a rest IH]; intros q; simpl.
  - exists []. rewrite app_nil_r. split; [reflexivity |].
    intros k. simpl. tauto.
  - destruct (status_eqb (status a) pending) eqn:Hp; simpl.
    + destruct (existsb (String.eqb (link a)) q) eqn:E; simpl.
      * destruct (IH q) as [added [Heq Hin]]. exists added. split; [assumption |].
        intros k. rewrite Hin. apply existsb_eqb_true_In in E.
        split; [tauto |]. intros [[<- | H] Hq]; [contradiction | tauto].
      * destruct (IH (q ++ [link a])) as [added [Heq Hin]].
        exists (link a :: added). split.
        { rewrite Heq, <- app_assoc. reflexivity. }
        apply existsb_eqb_false_not_In in E.
        intros k. simpl. rewrite Hin. split.
        { intros [<- | [H Hq]]; [tauto |].
          split; [tauto |]. intros Hk. apply Hq. apply in_or_app. tauto. }
        { intros [[<- | H] Hq]; [tauto |].
          destruct (string_dec (link a) k) as [-> | Hne]; [tauto |].
          right. split; [assumption |]. intros Hk.
          apply in_app_or in Hk. destruct Hk as [Hk | [Hk | []]]; tauto. }
    + apply IH.
Qed.

Lemma run_queue_op_NoDup (o : queue_op) (q : list string) :
  NoDup q -> NoDup (run_queue_op o q).
Proof.
  intros Hq. destruct o as [arts | page arts |]; simpl.
  - apply mark_on_screen_NoDup. constructor.
  - unfold update_priority_queue. apply mark_on_screen_NoDup.
    destruct (page =? 1); [constructor | assumption].
  - destruct q as [| l q']; simpl; [constructor |].
    inversion Hq; assumption.
Qed.

(** C8: whatever sequence of resets, appends and pops the queue has gone
    through since the process started with an empty queue, it holds no link
    twice; and popping the empty queue yields no link and an empty queue
    instead of raising. *)
Theorem priority_queue_has_no_duplicates :
  (forall ops, NoDup (run_queue_ops ops (PRIORITY_QUEUE initial_state))) /\
  pop_priority [] = (None, []).
Proof.
  split; [| reflexivity].
  intros ops. unfold run_queue_ops. simpl.
  assert (forall q, NoDup q ->
            NoDup (fold_left (fun q o => run_queue_op o q) ops q)) as H.
  { induction ops as [| o ops IH]; intros q Hq; simpl.
    - assumption.
    - apply IH. apply run_queue_op_NoDup. assumption. }
  apply H. constructor.
Qed.

(** ** The query route *)

Lemma get_news_ok_inv q page_arg now clock feed st st' items has_more :
  get_news q page_arg now clock feed st = (st', Ok (items, has_more)) ->
  exists d' articles,
    load_articles (request_cache_key q) now clock feed (db st) = (d', Ok articles) /\
    (items, has_more) = paginate articles (request_page page_arg) /\
    st' = mkState d' (update_priority_queue (request_page page_arg) items
                                            (PRIORITY_QUEUE st)).
Proof.
  unfold get_news. intros H.
  destruct (load_articles (request_cache_key q) now clock feed (db st))
    as [d' [articles |]]; [| discriminate].
  destruct (paginate articles (request_page page_arg)) as [pg hm] eqn:Hpg.
  inversion H; subst. exists d', articles.
  split; [reflexivity |]. split; [symmetry; assumption | reflexivity].
Qed.

(** C7: after a request for page 1 and then a request for page 2 of the same
    topic, both answered, the queue is the pending links of the first page
    followed by those pending links of the second page that the first did not
    bring, and no link occurs twice. *)
Theorem two_page_session_queue :
  forall q p1 p2 now1 clock1 feed1 now2 clock2 feed2 st st1 st2
         items1 more1 items2 more2,
    request_page p1 = 1 ->
    request_page p2 = 2 ->
    get_news q p1 now1 clock1 feed1 st = (st1, Ok (items1, more1)) ->
    get_news q p2 now2 clock2 feed2 st1 = (st2, Ok (items2, more2)) ->
    exists first second,
      PRIORITY_QUEUE st2 = first ++ second /\
      (forall k, In k first <-> In k (pending_links items1)) /\
      (forall k, In k second <->
                 In k (pending_links items2) /\ ~ In k (pending_links items1)) /\
      NoDup (PRIORITY_QUEUE st2).
Proof.
  intros q p1 p2 now1 clock1 feed1 now2 clock2 feed2 st st1 st2
         items1 more1 items2 more2 Hp1 Hp2 H1 H2.
  apply get_news_ok_inv in H1. destruct H1 as [d1 [arts1 [_ [_ Hst1]]]].
  apply get_news_ok_inv in H2. destruct H2 as [d2 [arts2 [_ [_ Hst2]]]].
  subst st1 st2. simpl. rewrite Hp1, Hp2. unfold update_priority_queue. simpl.
  destruct (mark_on_screen_appends items1 []) as [first [Hf Hfin]].
  destruct (mark_on_screen_appends items2 (mark_on_screen items1 []))
    as [second [Hs Hsin]].
  simpl in Hf. exists first, second. rewrite Hs, Hf. repeat split.
  - intros Hk. apply Hfin in Hk. tauto.
  - intros Hk. apply Hfin. split; [assumption | intros []].
  - apply Hsin in H. tauto.
  - apply Hsin in H. destruct H as [_ Hn]. intros Hk. apply Hn. rewrite Hf.
    apply Hfin. split; [assumption | intros []].
  - intros [Hk Hn]. apply Hsin. split; [assumption |]. rewrite Hf.
    intros Hk'. apply Hfin in Hk'. tauto.
  - rewrite <- Hf, <- Hs. apply mark_on_screen_NoDup.
    apply mark_on_screen_NoDup. constructor.
Qed.

Lemma two_page_session_queue_witness :
  exists first second,
    PRIORITY_QUEUE (fst session_page2) = first ++ second /\
    (forall k, In k first <-> In k (pending_links (served_page (snd session_page1)))) /\
    (forall k, In k second <->
               In k (pending_links (served_page (snd session_page2))) /\
               ~ In k (pending_links (served_page (snd session_page1)))) /\
    NoDup (PRIORITY_QUEUE (fst session_page2)).
Proof.
  assert (session_page1
          = (fst session_page1, Ok (served_page (snd session_page1), true))) as H1
    by reflexivity.
  assert (session_page2
          = (fst session_page2, Ok (served_page (snd session_page2), false))) as H2
    by reflexivity.
  exact (two_page_session_queue None None (Some "2"%string)
           1010 (fun _ => 1010) ParseRaised 1020 (fun _ => 1020) ParseRaised
           (mkState seven_rows ["https://old"%string])
           (fst session_page1) (fst session_page2)
           (served_page (snd session_page1)) true
           (served_page (snd session_page2)) false
           eq_refl eq_refl H1 H2).
Defined.

(** The session above leaves the seven links in the queue, newest first. *)
Example session_queue_contents :
  PRIORITY_QUEUE (fst session_page2)
  = ["https://7"; "https://6"; "https://5"; "https://4";
     "https://3"; "https://2"; "https://1"]%string.
Proof. reflexivity. Qed.

Lemma paginate_beyond_end (articles : list article) (page : Z) :
  (page - 1) * PAGE_SIZE >= Z.of_nat (List.length articles) ->
  paginate articles page = ([], false).
Proof.
  intros H. unfold paginate, py_slice, slice_bound.
  set (len := Z.of_nat (List.length articles)) in *.
  set (start_index := (page - 1) * PAGE_SIZE) in *.
  assert (0 <= len) by (unfold len; lia).
  assert (PAGE_SIZE = 6) as HP by reflexivity.
  assert ((start_index <? 0) = false) as -> by (apply Z.ltb_ge; lia).
  assert ((start_index + PAGE_SIZE <? 0) = false) as -> by (apply Z.ltb_ge; lia).
  assert ((start_index + PAGE_SIZE <? len) = false) as -> by (apply Z.ltb_ge; lia).
  replace (Z.min (start_index + PAGE_SIZE) len - Z.min start_index len) with 0 by lia.
  reflexivity.
Qed.

(** C10: a request for a page that starts at or beyond the end of the
    article list is answered, with no article and [has_more] false; and when
    the topic is served from the cache that list is the topic's stored rows,
    so the request cannot fail and the table stays as it is. *)
Theorem page_past_the_end_is_empty :
  forall q page_arg now clock feed st,
    (forall d' articles,
        load_articles (request_cache_key q) now clock feed (db st) = (d', Ok articles) ->
        (request_page page_arg - 1) * PAGE_SIZE >= Z.of_nat (List.length articles) ->
        exists st',
          get_news q page_arg now clock feed st = (st', Ok ([], false)) /\ db st' = d') /\
    (is_stale (request_cache_key q) now (db st) = false ->
     (request_page page_arg - 1) * PAGE_SIZE
       >= Z.of_nat (List.length (topic_rows (request_cache_key q) (db st))) ->
     exists st',
       get_news q page_arg now clock feed st = (st', Ok ([], false)) /\
       db st' = db st).
Proof.
  intros q page_arg now clock feed st.
  assert (forall d' articles,
        load_articles (request_cache_key q) now clock feed (db st) = (d', Ok articles) ->
        (request_page page_arg - 1) * PAGE_SIZE >= Z.of_nat (List.length articles) ->
        exists st',
          get_news q page_arg now clock feed st = (st', Ok ([], false)) /\ db st' = d')
    as General.
  { intros d' articles Hload Hpage. unfold get_news. rewrite Hload.
    rewrite (paginate_beyond_end _ _ Hpage). eexists. split; reflexivity. }
  split; [exact General |].
  intros Hfresh Hpage. apply (General (db st) (select_topic_desc (request_cache_key q) (db st))).
  - unfold load_articles. rewrite Hfresh. reflexivity.
  - unfold select_topic_desc. rewrite length_rev. exact Hpage.
Qed.

Lemma page_past_the_end_is_empty_witness :
  (exists st',
      get_news None (Some "3"%string) 1010 (fun _ => 1010) (Parsed false [])
               (mkState empty_table [])
      = (st', Ok ([], false)) /\ db st' = empty_table) /\
  (exists st',
      get_news None (Some "2"%string) 1000 (fun _ => 1000) ParseRaised one_row_state
      = (st', Ok ([], false)) /\ db st' = db one_row_state).
Proof.
  split.
  - apply (proj1 (page_past_the_end_is_empty None (Some "3"%string) 1010
                    (fun _ => 1010) (Parsed false []) (mkState empty_table []))
                 empty_table []).
    + reflexivity.
    + vm_compute. discriminate.
  - apply (proj2 (page_past_the_end_is_empty None (Some "2"%string) 1000
                    (fun _ => 1000) ParseRaised one_row_state)).
    + reflexivity.
    + vm_compute. discriminate.
Defined.

Lemma scan_fail_absorbs (l : list N) : fold_left scan_step l ScanFail = ScanFail.
Proof. induction l as [| c l IH]; simpl; [reflexivity | exact IH]. Qed.

Lemma scan_step_foreign (st : int_scan) (c : N) :
  is_int_char c = false -> scan_step st c = ScanFail.
Proof.
  unfold is_int_char. intros H.
  apply orb_false_iff in H. destruct H as [H H95].
  apply orb_false_iff in H. destruct H as [H H45].
  apply orb_false_iff in H. destruct H as [H H43].
  apply orb_false_iff in H. destruct H as [Hd Hs].
  destruct st as [| neg | neg acc n us | neg acc n |]; simpl;
    rewrite ?Hd, ?Hs, ?H43, ?H45, ?H95; reflexivity.
Qed.

Lemma scan_of_foreign (l : list N) (c : N) :
  In c l -> is_int_char c = false ->
  forall st, fold_left scan_step l st = ScanFail.
Proof.
  induction l as [| x l IH]; intros Hin Hc st; [contradiction |]. simpl.
  destruct Hin as [-> | Hin].
  - rewrite (scan_step_foreign st c Hc). apply scan_fail_absorbs.
  - apply IH; assumption.
Qed.

Lemma scan_of_spaces (l : list N) :
  Forall (fun c => is_c_space c = true) l ->
  fold_left scan_step l ScanStart = ScanStart.
Proof.
  induction 1 as [| c l Hc _ IH]; simpl; [reflexivity |]. rewrite Hc. exact IH.
Qed.

(** C6 (as amended): a request whose page parameter is absent, or is a text
    that [int] does not accept, is answered exactly as the request for
    page 1, and leaves the same state behind.  [int] accepts no text that
    holds a character other than a decimal digit, white space, a sign or an
    underscore, and no text of white space alone (the empty one included). *)
Theorem non_numeric_page_is_page_one :
  (forall q page_arg now clock feed st,
      (page_arg = None \/ exists s, page_arg = Some s /\ py_int s = None) ->
      get_news q page_arg now clock feed st
      = get_news q (Some "1"%string) now clock feed st) /\
  (forall s,
      (exists c, In c (code_points s) /\ is_int_char (int_char c) = false) \/
      Forall (fun c => is_c_space (int_char c) = true) (code_points s) ->
      py_int s = None).
Proof.
  split.
  - intros q page_arg now clock feed st H. unfold get_news.
    assert (request_page page_arg = request_page (Some "1"%string)) as ->.
    { destruct H as [-> | [s [-> Hs]]]; simpl; [reflexivity |].
      rewrite Hs. reflexivity. }
    reflexivity.
  - intros s [[c [Hin Hc]] | Hsp]; unfold py_int.
    + rewrite (scan_of_foreign _ (int_char c)); [reflexivity | | assumption].
      apply in_map. assumption.
    + rewrite scan_of_spaces; [reflexivity |].
      apply Forall_forall. intros x Hx. apply in_map_iff in Hx.
      destruct Hx as [c [<- Hc]]. rewrite Forall_forall in Hsp. apply Hsp. assumption.
Qed.

Lemma non_numeric_page_is_page_one_witness :
  get_news None (Some "2.5"%string) 1010 (fun _ => 1010) ParseRaised
           (mkState seven_rows ["https://old"%string])
  = session_page1 /\
  snd session_page1 = Ok (firstn 6 (rev (rows seven_rows)), true).
Proof.
  split; [| reflexivity].
  apply (proj1 non_numeric_page_is_page_one). right.
  exists "2.5"%string. split; [reflexivity |].
  apply (proj2 non_numeric_page_is_page_one). left.
  exists 46%N. split; [simpl; tauto | reflexivity].
Defined.

(** C6 (as stated) fails: page 0 is not clamped.  With one cached article the
    request for page 0 cuts [articles[-6:0]], which is empty, and reports
    [has_more]; the request for page 1 returns the article and no more. *)
Lemma page_zero_is_not_page_one :
  snd (get_news None (Some "0"%string) 1000 (fun _ => 0) ParseRaised one_row_state)
    = Ok ([], true) /\
  snd (get_news None (Some "1"%string) 1000 (fun _ => 0) ParseRaised one_row_state)
    = Ok (rows (db one_row_state), false).
Proof. split; reflexivity. Qed.

(** ** Staleness *)

Lemma last_cons {A : Type} (a b : A) (l : list A) : last (a :: l) b = last l a.
Proof.
  revert a b. induction l as [| c l IH]; intros a b; [reflexivity |].
  change (last (a :: c :: l) b) with (last (c :: l) b).
  rewrite (IH c b), (IH c a). reflexivity.
Qed.

Lemma hd_error_rev {A : Type} (a : A) (l : list A) :
  hd_error (rev (a :: l)) = Some (last l a).
Proof.
  revert a. induction l as [| b l IH]; intros a; [reflexivity |].
  change (rev (a :: b :: l)) with (rev (b :: l) ++ [a]).
  specialize (IH b). destruct (rev (b :: l)) as [| x r]; [discriminate |].
  simpl in *. rewrite IH. f_equal. symmetry. apply (last_cons b a l).
Qed.

Lemma last_in {A : Type} (a : A) (l : list A) : In (last l a) (a :: l).
Proof.
  revert a. induction l as [| b l IH]; intros a; [left; reflexivity |].
  rewrite last_cons. right. apply IH.
Qed.

Lemma max_of_ascending (l : list article) :
  forall a, timestamps_ascend (a :: l) ->
            max_fetch_timestamp a l = fetch_timestamp (last l a).
Proof.
  induction l as [| b l IH]; intros a [Hall Hrest]; [reflexivity |].
  simpl max_fetch_timestamp. rewrite (IH b Hrest).
  rewrite last_cons.
  pose proof (last_in b l) as Hin.
  rewrite Forall_forall in Hall. specialize (Hall _ Hin). lia.
Qed.

Lemma is_stale_latest key now d :
  is_stale key now d = true <->
  topic_rows key d = [] \/
  exists a l, topic_rows key d = a :: l /\
              now - fetch_timestamp (last l a) > CACHE_EXPIRATION_SECONDS.
Proof.
  unfold is_stale, latest_fetch_timestamp, select_topic_desc.
  fold (topic_rows key d).
  destruct (topic_rows key d) as [| a l] eqn:E.
  - simpl. split; [left; reflexivity | reflexivity].
  - rewrite hd_error_rev. simpl option_map. cbv iota. rewrite Z.ltb_lt. split.
    + intros H. right. exists a, l. split; [reflexivity | lia].
    + intros [H | [a' [l' [H1 H2]]]]; [discriminate |].
      inversion H1; subst. lia.
Qed.

(** C5 (as amended): the topic is stale exactly when it has no stored row or
    the row inserted last (the highest id) was fetched more than the window
    ago; when the fetch times of the topic's rows do not decrease in
    insertion order, that is the largest fetch time of the topic. *)
Theorem staleness_reads_latest_row :
  forall key now d,
    (is_stale key now d = true <->
       topic_rows key d = [] \/
       exists a l, topic_rows key d = a :: l /\
                   now - fetch_timestamp (last l a) > CACHE_EXPIRATION_SECONDS) /\
    (timestamps_ascend (topic_rows key d) ->
     (is_stale key now d = true <->
        topic_rows key d = [] \/
        exists a l, topic_rows key d = a :: l /\
                    now - max_fetch_timestamp a l > CACHE_EXPIRATION_SECONDS)).
Proof.
  intros key now d. split; [apply is_stale_latest |].
  intros Hasc. rewrite is_stale_latest. split.
  - intros [H | [a [l [E H]]]]; [left; assumption |].
    right. exists a, l. split; [assumption |].
    rewrite E in Hasc. rewrite (max_of_ascending l a Hasc). assumption.
  - intros [H | [a [l [E H]]]]; [left; assumption |].
    right. exists a, l. split; [assumption |].
    rewrite E in Hasc. rewrite <- (max_of_ascending l a Hasc). assumption.
Qed.

Lemma staleness_reads_latest_row_witness :
  timestamps_ascend (topic_rows "__trending__" (db one_row_state)) /\
  (is_stale "__trending__" 2000 (db one_row_state) = true <->
   topic_rows "__trending__" (db one_row_state) = [] \/
   exists a l, topic_rows "__trending__" (db one_row_state) = a :: l /\
               2000 - max_fetch_timestamp a l > CACHE_EXPIRATION_SECONDS).
Proof.
  assert (timestamps_ascend (topic_rows "__trending__" (db one_row_state))) as H.
  { simpl. split; constructor. }
  split; [exact H |].
  exact (proj2 (staleness_reads_latest_row "__trending__" 2000 (db one_row_state)) H).
Defined.

(** C5 (as stated) fails: at time 1000 the topic below is reported stale
    from its last row (fetched at 0), although it has rows and the largest
    fetch time among them is 1000, no time ago. *)
Lemma staleness_is_not_about_the_maximum :
  ~ (is_stale "t" 1000 clock_stepped_back = true <->
     topic_rows "t" clock_stepped_back = [] \/
     exists a l, topic_rows "t" clock_stepped_back = a :: l /\
                 1000 - max_fetch_timestamp a l > CACHE_EXPIRATION_SECONDS).
Proof.
  intros [H _]. destruct (H eq_refl) as [E | [a [l [E Hgt]]]].
  - discriminate E.
  - vm_compute in E. inversion E; subst. vm_compute in Hgt. discriminate Hgt.
Qed.

(** ** The table *)

Lemma find_map_same_id (g : article -> article) (j : Z) (l : list article) :
  (forall a, id (g a) = id a) ->
  find (fun a => id a =? j) (map g l) = option_map g (find (fun a => id a =? j) l).
Proof.
  intros Hg. induction l as [| a l IH]; simpl; [reflexivity |].
  rewrite Hg. destruct (id a =? j); [reflexivity | exact IH].
Qed.

Lemma row_at_update (f : article -> article) (i j : Z) (d : table) :
  (forall a, id (f a) = id a) ->
  row_at j (update_where_id f i d)
  = option_map (fun a => if id a =? i then f a else a) (row_at j d).
Proof.
  intros Hf. unfold row_at, update_where_id. simpl.
  apply find_map_same_id. intros a. destruct (id a =? i); [apply Hf | reflexivity].
Qed.

Lemma row_at_id (i : Z) (d : table) (r : article) :
  row_at i d = Some r -> id r = i /\ In r (rows d).
Proof.
  unfold row_at. intros H. apply find_some in H. destruct H as [Hin Hid].
  apply Z.eqb_eq in Hid. split; assumption.
Qed.

Lemma NoDup_map_In_eq {A B : Type} (f : A -> B) (l : list A) (a b : A) :
  NoDup (map f l) -> In a l -> In b l -> f a = f b -> a = b.
Proof.
  induction l as [| x l IH]; simpl; intros Hnd Ha Hb Hf; [contradiction |].
  inversion Hnd as [| ? ? Hx Hl]; subst.
  destruct Ha as [-> | Ha], Hb as [-> | Hb].
  - reflexivity.
  - exfalso. apply Hx. rewrite Hf. apply in_map. assumption.
  - exfalso. apply Hx. rewrite <- Hf. apply in_map. assumption.
  - apply IH; assumption.
Qed.

Lemma row_at_of_member (d : table) (a : article) :
  NoDup (map id (rows d)) -> In a (rows d) -> row_at (id a) d = Some a.
Proof.
  intros Hnd Hin. unfold row_at.
  destruct (find (fun x => id x =? id a) (rows d)) as [r |] eqn:E.
  - apply find_some in E. destruct E as [Hr Hid]. apply Z.eqb_eq in Hid.
    f_equal. apply (NoDup_map_In_eq id (rows d)); assumption.
  - exfalso. pose proof (find_none _ _ E a Hin) as H. simpl in H.
    rewrite Z.eqb_refl in H. discriminate.
Qed.

Lemma status_at_row (i : Z) (d : table) :
  status_at i d = option_map status (row_at i d).
Proof. reflexivity. Qed.

Lemma filter_keeps_distinct (B : Type) (col : article -> B) (keep : article -> bool) :
  forall rs, NoDup (map col rs) -> NoDup (map col (filter keep rs)).
Proof.
  intros rs. induction rs as [| x rs IH]; simpl; intros Hnd; [constructor |].
  inversion Hnd as [| ? ? Hx Hl]; subst.
  destruct (keep x); simpl; [| apply IH; assumption].
  constructor; [| apply IH; assumption].
  intros Hin. apply Hx. apply in_map_iff in Hin. destruct Hin as [y [Hy Hin]].
  apply filter_In in Hin. rewrite <- Hy. apply in_map. tauto.
Qed.

Lemma delete_topic_wf (key : string) (d : table) :
  wf_table d -> wf_table (delete_topic key d).
Proof.
  intros [Hid [Hlink Hseq]]. unfold wf_table, delete_topic. simpl.
  split; [apply filter_keeps_distinct; assumption |].
  split; [apply filter_keeps_distinct; assumption |].
  rewrite Forall_forall in *. intros a Ha. apply filter_In in Ha.
  apply Hseq. tauto.
Qed.

Lemma has_link_In (l : string) (d : table) :
  has_link l d = true <-> In l (map link (rows d)).
Proof.
  unfold has_link. rewrite existsb_exists, in_map_iff. split.
  - intros [a [Ha He]]. apply String.eqb_eq in He. exists a. tauto.
  - intros [a [He Ha]]. exists a. split; [assumption |].
    apply String.eqb_eq. assumption.
Qed.

(** What one [INSERT OR IGNORE] does to the table. *)
Lemma insert_or_ignore_spec l t src sm img s tp ts d :
  exists added,
    rows (insert_or_ignore l t src sm img s tp ts d) = rows d ++ added /\
    Forall (fun a => status a = s /\ topic a = tp /\ sqlite_sequence d < id a) added /\
    sqlite_sequence d <= sqlite_sequence (insert_or_ignore l t src sm img s tp ts d) /\
    In l (map link (rows (insert_or_ignore l t src sm img s tp ts d))) /\
    (wf_table d -> wf_table (insert_or_ignore l t src sm img s tp ts d)).
Proof.
  unfold insert_or_ignore. cbv zeta. destruct (has_link l d) eqn:E.
  - exists []. simpl. rewrite app_nil_r. apply has_link_In in E.
    split; [reflexivity |]. split; [constructor |]. split; [lia |].
    split; [assumption |].
    intros [Hid [Hlink Hseq]]. unfold wf_table. simpl.
    split; [assumption |]. split; [assumption |].
    eapply Forall_impl; [| exact Hseq]. simpl. intros a Ha. lia.
  - exists [mkArticle (sqlite_sequence d + 1) l t src sm img None s tp ts].
    simpl. split; [reflexivity |]. split.
    { constructor; [simpl; repeat split; lia | constructor]. }
    split; [lia |]. split.
    { rewrite map_app. apply in_or_app. right. left. reflexivity. }
    intros [Hid [Hlink Hseq]]. unfold wf_table. simpl. rewrite !map_app. simpl.
    rewrite Forall_forall in Hseq. split; [| split].
    + apply NoDup_snoc; [assumption |]. intros Hin.
      apply in_map_iff in Hin. destruct Hin as [a [Ha Hin]].
      specialize (Hseq a Hin). lia.
    + apply NoDup_snoc; [assumption |]. intros Hin.
      apply has_link_In in Hin. congruence.
    + apply Forall_forall. intros a Ha. apply in_app_or in Ha.
      destruct Ha as [Ha | [<- | []]]; [specialize (Hseq a Ha); lia | simpl; lia].
Qed.

Lemma entry_values_link e l t src sm img :
  entry_values e = Ok (l, t, src, sm, img) -> entry_link e = Some l.
Proof.
  unfold entry_values. intros H.
  destruct (entry_source e) as [[s |] |], (entry_link e), (entry_title e),
    (entry_summary e); try discriminate; inversion H; reflexivity.
Qed.

(** What the insertion loop does when it runs to its end. *)
Lemma insert_entries_spec key clock (es : list entry) :
  forall k d d',
    insert_entries key clock k es d = Ok d' ->
    exists added,
      rows d' = rows d ++ added /\
      Forall (fun a => status a = pending /\ topic a = key
                       /\ sqlite_sequence d < id a) added /\
      sqlite_sequence d <= sqlite_sequence d' /\
      (forall l, In (Some l) (map entry_link es) -> In l (map link (rows d'))) /\
      (wf_table d -> wf_table d').
Proof.
  induction es as [| e es IH]; intros k d d' H; simpl in H.
  - inversion H; subst. exists []. rewrite app_nil_r.
    repeat split; try constructor; try lia; try apply H0. intros l [].
  - destruct (entry_values e) as [[[[[l t] src] sm] img] |] eqn:Ev; [| discriminate].
    destruct (insert_or_ignore_spec l t src sm img pending key (clock k) d)
      as [add1 [R1 [F1 [S1 [L1 W1]]]]].
    destruct (IH _ _ _ H) as [add2 [R2 [F2 [S2 [L2 W2]]]]].
    exists (add1 ++ add2). split; [rewrite R2, R1, app_assoc; reflexivity |].
    split.
    { apply Forall_app. split; [assumption |].
      eapply Forall_impl; [| exact F2]. simpl. intros a [? [? ?]].
      repeat split; try assumption. lia. }
    split; [lia |]. split; [| tauto].
    intros l0 [Hl | Hl].
    + rewrite (entry_values_link _ _ _ _ _ _ Ev) in Hl. inversion Hl; subst.
      rewrite R2, map_app. apply in_or_app. left. assumption.
    + apply L2. assumption.
Qed.

Lemma insert_entries_raises key clock (es : list entry) :
  forall k d,
    existsb (fun e => match entry_values e with Raised => true | Ok _ => false end) es
      = true ->
    insert_entries key clock k es d = Raised.
Proof.
  induction es as [| e es IH]; intros k d H; simpl in *; [discriminate |].
  destruct (entry_values e) as [[[[[l t] src] sm] img] |]; [| reflexivity].
  apply IH. exact H.
Qed.

(** A refresh that commits leaves the other topics' rows, in order, followed
    by new pending rows of the topic with ids above every earlier one. *)
Lemma fetch_and_cache_news_commit key clock feed d d' served :
  fetch_and_cache_news key clock feed d = (d', Ok served) ->
  exists bozo entries added,
    feed = Parsed bozo entries /\
    rows d' = rows (delete_topic key d) ++ added /\
    Forall (fun a => status a = pending /\ topic a = key
                     /\ sqlite_sequence d < id a) added /\
    (forall l, In (Some l) (map entry_link (firstn FEED_FETCH_COUNT entries)) ->
               In l (map link (rows d'))) /\
    (wf_table d -> wf_table d').
Proof.
  unfold fetch_and_cache_news. intros H.
  destruct feed as [| bozo entries]; [discriminate |].
  destruct (insert_entries key clock 0 (firstn FEED_FETCH_COUNT entries)
                           (delete_topic key d)) as [d1 |] eqn:E; [| discriminate].
  inversion H; subst.
  destruct (insert_entries_spec _ _ _ _ _ _ E) as [added [R [F [S [L W]]]]].
  exists bozo, entries, added.
  split; [reflexivity |]. split; [assumption |]. split; [exact F |].
  split; [assumption |].
  intros Hwf. apply W. apply delete_topic_wf. assumption.
Qed.

Lemma fetch_and_cache_news_raised key clock feed d d' :
  fetch_and_cache_news key clock feed d = (d', Raised) -> d' = d.
Proof.
  unfold fetch_and_cache_news. intros H.
  destruct feed as [| bozo entries]; [inversion H; reflexivity |].
  destruct (insert_entries key clock 0 (firstn FEED_FETCH_COUNT entries)
                           (delete_topic key d)); inversion H; reflexivity.
Qed.

(** ** Ingestion *)

(** C9: an insert whose link the table already holds leaves the rows of the
    table exactly as they are: none is added and each keeps every column
    (the insert only uses up one value of the AUTOINCREMENT counter); and a
    committed ingestion leaves at most one row per link, with exactly one row
    for each link of the ingested batch, which is a pending row of the topic
    unless another topic held the link before. *)
Theorem duplicate_key_insert_is_ignored :
  (forall d l t src sm img s tp ts,
      In l (map link (rows d)) ->
      rows (insert_or_ignore l t src sm img s tp ts d) = rows d) /\
  (forall d key clock bozo entries d' served,
      wf_table d ->
      fetch_and_cache_news key clock (Parsed bozo entries) d = (d', Ok served) ->
      NoDup (map link (rows d')) /\
      forall k,
        In (Some k) (map entry_link (firstn FEED_FETCH_COUNT entries)) ->
        exists a,
          In a (rows d') /\ link a = k /\
          (forall b, In b (rows d') -> link b = k -> b = a) /\
          ((forall b, In b (rows d) -> link b = k -> topic b = key) ->
           status a = pending /\ topic a = key)).
Proof.
  split.
  - intros d l t src sm img s tp ts Hin. unfold insert_or_ignore. cbv zeta.
    apply has_link_In in Hin. rewrite Hin. reflexivity.
  - intros d key clock bozo entries d' served Hwf Hfetch.
    destruct (fetch_and_cache_news_commit _ _ _ _ _ _ Hfetch)
      as [bozo' [entries' [added [Hfeed [R [F [L W]]]]]]].
    inversion Hfeed; subst bozo' entries'.
    destruct (W Hwf) as [_ [Hlinks _]]. split; [assumption |].
    intros k Hk. specialize (L k Hk).
    apply in_map_iff in L. destruct L as [a [Hka Ha]].
    exists a. split; [assumption |]. split; [assumption |]. split.
    + intros b Hb Hkb. apply (NoDup_map_In_eq link (rows d')); try assumption.
      congruence.
    + intros Hown. rewrite R in Ha. apply in_app_or in Ha.
      destruct Ha as [Ha | Ha].
      * exfalso. unfold delete_topic in Ha. simpl in Ha.
        apply filter_In in Ha. destruct Ha as [Ha Ht].
        specialize (Hown a Ha Hka). apply String.eqb_eq in Hown.
        rewrite Hown in Ht. discriminate.
      * rewrite Forall_forall in F. specialize (F a Ha). tauto.
Qed.

Lemma empty_table_wf : wf_table empty_table.
Proof. unfold wf_table. simpl. repeat split; constructor. Defined.

Lemma duplicate_key_insert_is_ignored_witness :
  rows (insert_or_ignore "https://a" "other" None None None done "u" 7
                         (db one_row_state))
    = rows (db one_row_state) /\
  (NoDup (map link (rows (fst three_items))) /\
   forall k,
     In (Some k) (map entry_link
                      (firstn FEED_FETCH_COUNT
                              [sample_entry "https://a"; sample_entry "https://b";
                               sample_entry "https://a"])) ->
     exists a,
       In a (rows (fst three_items)) /\ link a = k /\
       (forall b, In b (rows (fst three_items)) -> link b = k -> b = a) /\
       ((forall b, In b (rows empty_table) -> link b = k -> topic b = "X"%string) ->
        status a = pending /\ topic a = "X"%string)).
Proof.
  split.
  - apply (proj1 duplicate_key_insert_is_ignored). simpl. left. reflexivity.
  - apply (proj2 duplicate_key_insert_is_ignored empty_table "X"%string
                 (fun k => 100 + Z.of_nat k) false
                 [sample_entry "https://a"; sample_entry "https://b";
                  sample_entry "https://a"]
                 (fst three_items) (rev (rows (fst three_items)))
                 empty_table_wf).
    reflexivity.
Defined.

(** The scenario of the specification: the table ends with two rows, one per
    link, both pending under the topic. *)
Example three_items_two_sharing_a_link :
  map link (rows (fst three_items)) = ["https://a"; "https://b"]%string /\
  map status (topic_rows "X" (fst three_items)) = [pending; pending].
Proof. split; reflexivity. Qed.

(** C2 (as amended): when the refresh raises, from the parser or from an
    entry that lacks an attribute the loop reads, the table is left exactly
    as it was, and a request that needed the refresh ends with that
    exception, its state unchanged, instead of an empty page. *)
Theorem raising_refresh_keeps_the_cache :
  forall feed,
    refresh_raises feed = true ->
    (forall key clock d, fetch_and_cache_news key clock feed d = (d, Raised)) /\
    (forall q page_arg now clock st,
        is_stale (request_cache_key q) now (db st) = true ->
        get_news q page_arg now clock feed st = (st, Raised)).
Proof.
  intros feed Hfeed.
  assert (forall key clock d, fetch_and_cache_news key clock feed d = (d, Raised)) as H.
  { intros key clock d. unfold fetch_and_cache_news.
    destruct feed as [| bozo entries]; [reflexivity |].
    simpl in Hfeed. rewrite (insert_entries_raises _ _ _ _ _ Hfeed). reflexivity. }
  split; [exact H |].
  intros q page_arg now clock st Hstale. unfold get_news, load_articles.
  rewrite Hstale, H. destruct st; reflexivity.
Qed.

Lemma raising_refresh_keeps_the_cache_witness :
  get_news None None 5000 (fun _ => 5000)
           (Parsed false [mkEntry None (Some "headline"%string) None None None])
           one_row_state
  = (one_row_state, Raised).
Proof.
  apply (proj2 (raising_refresh_keeps_the_cache
                  (Parsed false [mkEntry None (Some "headline"%string) None None None])
                  eq_refl)).
  reflexivity.
Defined.

(** C2 (as stated) fails: a fetch that fails the way the parser reports it,
    a flagged result without entries, does not raise.  The refresh commits
    the delete, the topic's cached row is gone, and the request answers with
    an empty page. *)
Lemma flagged_empty_feed_empties_the_cache :
  fetch_failed (Parsed true []) = true /\
  List.length (topic_rows "__trending__" (db one_row_state)) = 1%nat /\
  get_news None None 5000 (fun _ => 5000) (Parsed true []) one_row_state
  = (mkState (mkTable [] 1) [], Ok ([], false)).
Proof. repeat split. Qed.

(** ** The summarizer *)

Lemma select_article_pending st a st0 :
  select_article st = (Some a, st0) ->
  In a (rows (db st)) /\ status a = pending /\ db st0 = db st.
Proof.
  unfold select_article.
  destruct (pop_priority (PRIORITY_QUEUE st)) as [hint q'].
  intros H. inversion H as [[Hsel Hst]]. clear H. simpl.
  assert (forall l, select_pending_by_link l (db st) = Some a ->
                    In a (rows (db st)) /\ status a = pending) as ByLink.
  { intros l Hl. apply find_some in Hl. destruct Hl as [Hin Hp].
    apply andb_true_iff in Hp. destruct Hp as [_ Hp].
    apply status_eqb_eq in Hp. tauto. }
  assert (select_any_pending (db st) = Some a ->
          In a (rows (db st)) /\ status a = pending) as Scan.
  { intros Hl. apply find_some in Hl. destruct Hl as [Hin Hp].
    apply status_eqb_eq in Hp. tauto. }
  assert (In a (rows (db st)) /\ status a = pending) as [Hin Hp].
  { destruct hint as [l |]; [| apply Scan; assumption].
    destruct (String.eqb l EmptyString); [apply Scan; assumption |].
    destruct (select_pending_by_link l (db st)) as [b |] eqn:E.
    - inversion Hsel; subst. apply (ByLink l). assumption.
    - apply Scan. assumption. }
  repeat split; assumption.
Qed.

Lemma summarizer_pass_selected prov backend st a st0 :
  select_article st = (Some a, st0) ->
  summarizer_pass prov backend st
  = (finalize a (get_ai_summary prov backend (build_prompt a)) (claim a st0),
     Summarized (id a) (get_ai_summary prov backend (build_prompt a))).
Proof. unfold summarizer_pass. intros ->. reflexivity. Qed.

Lemma row_at_claim a st j :
  row_at j (db (claim a st))
  = option_map (fun r => if id r =? id a then set_status in_progress r else r)
               (row_at j (db st)).
Proof.
  unfold claim, mark_in_progress. simpl. apply row_at_update. reflexivity.
Qed.

Lemma row_at_finalize a summary st j :
  row_at j (db (finalize a summary st))
  = option_map (fun r => if id r =? id a
                         then set_status_summary
                                (if contains "Error:" summary then error else done)
                                summary r
                         else r)
               (row_at j (db st)).
Proof.
  unfold finalize, store_outcome. simpl. apply row_at_update. reflexivity.
Qed.

Lemma diagnostic_is_error_shaped (prov : string) :
  contains "Error:"
    ("Error: AI summarization failed. Provider: " ++ prov ++ ".")%string = true.
Proof. reflexivity. Qed.

(** C3: the row claimed in a pass ends the pass with the text returned by
    [get_ai_summary] as its summary and with status done or error; it is done
    with the backend's stripped answer when the backend answered a text
    without the error marker, and it is error exactly when the backend call
    raised or its answer carries the marker. *)
Theorem finalize_records_the_outcome :
  forall prov backend st a st0,
    wf_table (db st) ->
    select_article st = (Some a, st0) ->
    exists r,
      row_at (id a) (db (fst (summarizer_pass prov backend st))) = Some r /\
      ai_summary r = Some (get_ai_summary prov backend (build_prompt a)) /\
      (status r = done \/ status r = error) /\
      (forall text,
          backend (build_prompt a) = Some text ->
          contains "Error:" (strip text) = false ->
          status r = done /\ ai_summary r = Some (strip text)) /\
      (status r = error <->
         backend (build_prompt a) = None \/
         exists text, backend (build_prompt a) = Some text /\
                      contains "Error:" (strip text) = true).
Proof.
  intros prov backend st a st0 [Hid _] Hsel.
  destruct (select_article_pending _ _ _ Hsel) as [Hin [Hp Hdb]].
  rewrite (summarizer_pass_selected _ _ _ _ _ Hsel). simpl fst.
  rewrite row_at_finalize, row_at_claim, Hdb, (row_at_of_member _ _ Hid Hin).
  simpl option_map. rewrite Z.eqb_refl. cbv beta. simpl id. rewrite Z.eqb_refl.
  eexists. split; [reflexivity |]. simpl ai_summary. simpl status.
  split; [reflexivity |].
  unfold get_ai_summary.
  destruct (backend (build_prompt a)) as [text |].
  - destruct (contains "Error:" (strip text)) eqn:E.
    + split; [right; reflexivity |]. split.
      * intros t Ht Hc. inversion Ht; subst. congruence.
      * split; [intros _; right; exists text; split; [reflexivity | assumption] |
                reflexivity].
    + split; [left; reflexivity |]. split.
      * intros t Ht Hc. inversion Ht; subst. split; reflexivity.
      * split; [discriminate |].
        intros [H | [t [Ht Hc]]]; [discriminate |]. inversion Ht; subst. congruence.
  - rewrite diagnostic_is_error_shaped.
    split; [right; reflexivity |]. split.
    + intros t Ht. discriminate.
    + split; [intros _; left; reflexivity | reflexivity].
Qed.

Lemma hinted_state_wf : wf_table (db hinted_state).
Proof.
  unfold wf_table. simpl. repeat split.
  - constructor; [intros [] | constructor].
  - constructor; [intros [] | constructor].
  - constructor; [discriminate | constructor].
Defined.

Lemma finalize_records_the_outcome_witness :
  exists r,
    row_at 1 (db (fst (summarizer_pass "ollama" (fun _ => Some "  Fine.  "%string)
                                       hinted_state))) = Some r /\
    status r = done /\ ai_summary r = Some (strip "  Fine.  ").
Proof.
  destruct (finalize_records_the_outcome "ollama" (fun _ => Some "  Fine.  "%string)
              hinted_state _ _ hinted_state_wf eq_refl) as [r [H1 [_ [_ [H4 _]]]]].
  exists r. split; [exact H1 |].
  exact (H4 "  Fine.  "%string eq_refl eq_refl).
Defined.

(** C1 (as amended): the claim is an update by row id alone.  Whatever status
    the row has, the update stores in_progress and keeps its other fields.
    In a pass the selected row is pending when selected, is in_progress after
    the claim, every other row is untouched, and the pass always goes on to
    summarize the row it selected: it has no way back to the selection. *)
Theorem claim_is_an_update_by_id :
  (forall d i r,
      row_at i d = Some r ->
      row_at i (mark_in_progress i d) = Some (set_status in_progress r)) /\
  (forall st a st0,
      wf_table (db st) ->
      select_article st = (Some a, st0) ->
      status_at (id a) (db st0) = Some pending /\
      status_at (id a) (db (claim a st0)) = Some in_progress /\
      (forall j, j <> id a -> row_at j (db (claim a st0)) = row_at j (db st0)) /\
      (forall prov backend,
          snd (summarizer_pass prov backend st)
          = Summarized (id a) (get_ai_summary prov backend (build_prompt a)))).
Proof.
  split.
  - intros d i r Hr. unfold mark_in_progress.
    rewrite row_at_update by reflexivity. rewrite Hr. simpl.
    destruct (row_at_id _ _ _ Hr) as [-> _]. rewrite Z.eqb_refl. reflexivity.
  - intros st a st0 [Hid _] Hsel.
    destruct (select_article_pending _ _ _ Hsel) as [Hin [Hp Hdb]].
    split; [| split; [| split]].
    + rewrite status_at_row, Hdb, (row_at_of_member _ _ Hid Hin).
      simpl. rewrite Hp. reflexivity.
    + rewrite status_at_row, row_at_claim, Hdb, (row_at_of_member _ _ Hid Hin).
      simpl. rewrite Z.eqb_refl. reflexivity.
    + intros j Hj. rewrite row_at_claim, Hdb.
      destruct (row_at j (db st)) as [r |] eqn:E; [| reflexivity].
      destruct (row_at_id _ _ _ E) as [Hr _]. simpl.
      assert ((id r =? id a) = false) as -> by (apply Z.eqb_neq; congruence).
      reflexivity.
    + intros prov backend. rewrite (summarizer_pass_selected _ _ _ _ _ Hsel).
      reflexivity.
Qed.

Lemma claim_is_an_update_by_id_witness :
  row_at 1 (mark_in_progress 1 (db finished_state))
    = Some (mkArticle 1 "https://a" "A" None (Some "x"%string) None
                      (Some "Done elsewhere."%string)
                      in_progress "__trending__" 1000) /\
  status_at 1 (db (snd (select_article hinted_state))) = Some pending /\
  status_at 1 (db (claim (mkArticle 1 "https://a" "A" None (Some "x"%string) None None
                                    pending "__trending__" 1000)
                         (snd (select_article hinted_state)))) = Some in_progress.
Proof.
  split.
  - exact (proj1 claim_is_an_update_by_id (db finished_state) 1 _ eq_refl).
  - destruct (proj2 claim_is_an_update_by_id hinted_state _ _ hinted_state_wf eq_refl)
      as [H1 [H2 _]].
    split; [exact H1 | exact H2].
Defined.

(** C1 (as stated) fails: the update does not look at the current status.
    The pass below selected row 1 while it was pending; by the time of the
    update the row is done, and the update still stores in_progress. *)
Lemma claim_overwrites_a_finished_row :
  fst (select_article hinted_state)
    = Some (mkArticle 1 "https://a" "A" None (Some "x"%string) None None
                      pending "__trending__" 1000) /\
  status_at 1 (db finished_state) = Some done /\
  status_at 1 (db (claim (mkArticle 1 "https://a" "A" None (Some "x"%string) None None
                                    pending "__trending__" 1000)
                         finished_state)) = Some in_progress /\
  claim (mkArticle 1 "https://a" "A" None (Some "x"%string) None None
                   pending "__trending__" 1000) finished_state <> finished_state.
Proof. repeat split. discriminate. Qed.

(** ** Status transitions *)

Lemma status_at_startup i d :
  status_at i (reset_in_progress d)
  = option_map (fun s => if status_eqb s in_progress then pending else s)
               (status_at i d).
Proof.
  unfold status_at, reset_in_progress. simpl.
  rewrite find_map_same_id.
  - destruct (find (fun a => id a =? i) (rows d)) as [r |]; [| reflexivity].
    simpl. destruct (status_eqb (status r) in_progress); reflexivity.
  - intros a. destruct (status_eqb (status a) in_progress); reflexivity.
Qed.

Lemma db_after_get_news q page_arg now clock feed st :
  db (fst (get_news q page_arg now clock feed st))
  = fst (load_articles (request_cache_key q) now clock feed (db st)).
Proof.
  unfold get_news.
  destruct (load_articles (request_cache_key q) now clock feed (db st))
    as [d' [articles |]]; [| reflexivity].
  destruct (paginate articles (request_page page_arg)). reflexivity.
Qed.

(** A request never changes the status of a row that is there before and
    after it. *)
Lemma load_articles_keeps_status key now clock feed d i s s' :
  wf_table d ->
  status_at i d = Some s ->
  status_at i (fst (load_articles key now clock feed d)) = Some s' ->
  s' = s.
Proof.
  intros Hwf Hs. unfold load_articles.
  destruct (is_stale key now d); [| simpl; congruence].
  destruct (fetch_and_cache_news key clock feed d) as [d' [served |]] eqn:E; simpl.
  - destruct (fetch_and_cache_news_commit _ _ _ _ _ _ E)
      as [bozo [entries [added [_ [R [F _]]]]]].
    destruct Hwf as [Hid [_ Hseq]].
    rewrite status_at_row in *.
    destruct (row_at i d) as [r |] eqn:Er; [| discriminate].
    destruct (row_at i d') as [r' |] eqn:Er'; [| discriminate].
    simpl in *. intros Hs'. inversion Hs; inversion Hs'; subst.
    destruct (row_at_id _ _ _ Er) as [Hr Hrin].
    destruct (row_at_id _ _ _ Er') as [Hr' Hrin'].
    rewrite R in Hrin'. apply in_app_or in Hrin'. destruct Hrin' as [Hold | Hnew].
    + unfold delete_topic in Hold. simpl in Hold. apply filter_In in Hold.
      destruct Hold as [Hold _].
      f_equal. apply (NoDup_map_In_eq id (rows d)); try assumption. congruence.
    + exfalso. rewrite Forall_forall in F, Hseq.
      specialize (F r' Hnew). specialize (Hseq r Hrin). lia.
  - rewrite (fetch_and_cache_news_raised _ _ _ _ _ E). congruence.
Qed.

(** C4 (as amended): for a row with status [s],
    - startup recovery moves it back to pending when [s] is in_progress and
      leaves it alone otherwise;
    - a pass of the summarizer either leaves its status alone, both after the
      claim and at the end, or finds it pending, stores in_progress at the
      claim and done or error at the end;
    - a request leaves its status alone as long as the row exists (a refresh
      deletes rows and inserts new ones, it updates none).
    So a done or error row never changes status, and pending never becomes
    done or error without in_progress in between. *)
Theorem status_transitions_of_the_program :
  forall st i s,
    wf_table (db st) ->
    status_at i (db st) = Some s ->
    status_at i (db (startup_tasks st))
      = Some (if status_eqb s in_progress then pending else s) /\
    (forall prov backend,
        (status_at i (db (after_claim st)) = Some s /\
         status_at i (db (fst (summarizer_pass prov backend st))) = Some s) \/
        (s = pending /\
         status_at i (db (after_claim st)) = Some in_progress /\
         (status_at i (db (fst (summarizer_pass prov backend st))) = Some done \/
          status_at i (db (fst (summarizer_pass prov backend st))) = Some error))) /\
    (forall q page_arg now clock feed s',
        status_at i (db (fst (get_news q page_arg now clock feed st))) = Some s' ->
        s' = s).
Proof.
  intros st i s Hwf Hs. split; [| split].
  - unfold startup_tasks. simpl. rewrite status_at_startup, Hs. reflexivity.
  - intros prov backend. unfold after_claim.
    destruct (select_article st) as [[a |] st0] eqn:Hsel.
    + destruct (select_article_pending _ _ _ Hsel) as [Hin [Hp Hdb]].
      rewrite (summarizer_pass_selected _ _ _ _ _ Hsel). simpl fst.
      rewrite !status_at_row, row_at_finalize, row_at_claim, Hdb.
      rewrite status_at_row in Hs.
      destruct (row_at i (db st)) as [r |] eqn:Er; [| discriminate].
      simpl in Hs. inversion Hs; subst s. simpl option_map.
      destruct (row_at_id _ _ _ Er) as [Hr Hrin].
      destruct (id r =? id a) eqn:Eid.
      * right. apply Z.eqb_eq in Eid.
        assert (r = a) as ->.
        { destruct Hwf as [Hid _].
          apply (NoDup_map_In_eq id (rows (db st))); assumption. }
        simpl id. rewrite Z.eqb_refl. simpl.
        split; [assumption |]. split; [reflexivity |].
        destruct (contains "Error:" (get_ai_summary prov backend (build_prompt a)));
          [right | left]; reflexivity.
      * left. rewrite Eid. split; reflexivity.
    + unfold summarizer_pass. rewrite Hsel. simpl.
      assert (db st0 = db st) as ->.
      { unfold select_article in Hsel.
        destruct (pop_priority (PRIORITY_QUEUE st)). inversion Hsel. reflexivity. }
      left. split; assumption.
  - intros q page_arg now clock feed s' Hs'. rewrite db_after_get_news in Hs'.
    eapply load_articles_keeps_status; eassumption.
Qed.

Lemma status_transitions_of_the_program_witness :
  status_at 1 (db (startup_tasks hinted_state)) = Some pending /\
  status_at 1 (db (after_claim hinted_state)) = Some in_progress /\
  pending = pending.
Proof.
  destruct (status_transitions_of_the_program hinted_state 1 pending
              hinted_state_wf eq_refl) as [H1 [H2 H3]].
  split; [exact H1 |]. split.
  - destruct (H2 "ollama"%string (fun _ => None)) as [[H _] | [_ [H _]]];
      [discriminate H | exact H].
  - exact (H3 None None 1000 (fun _ => 1000) ParseRaised pending eq_refl).
Defined.

(** C4 (as stated) fails: startup recovery is an operation of the program
    that moves a row from in_progress to pending, which is no step of the
    path pending, in_progress, done or error. *)
Lemma startup_moves_in_progress_back :
  status_at 1 (db crashed_state) = Some in_progress /\
  status_at 1 (db (startup_tasks crashed_state)) = Some pending /\
  in_progress <> pending /\
  ~ path_step in_progress pending.
Proof.
  split; [reflexivity |]. split; [reflexivity |]. split; [discriminate |].
  intros [[H _] | [_ [H | H]]]; discriminate.
Qed.

(** ** The schema invariant along a run *)

Lemma map_rows_wf (g : article -> article) (d : table) :
  (forall a, id (g a) = id a) ->
  (forall a, link (g a) = link a) ->
  wf_table d ->
  wf_table (mkTable (map g (rows d)) (sqlite_sequence d)).
Proof.
  intros Hid Hlink [Hi [Hl Hs]]. unfold wf_table. simpl.
  rewrite !map_map.
  rewrite (map_ext (fun a => id (g a)) id Hid).
  rewrite (map_ext (fun a => link (g a)) link Hlink).
  split; [assumption |]. split; [assumption |].
  rewrite Forall_forall in *. intros b Hb. apply in_map_iff in Hb.
  destruct Hb as [a [<- Ha]]. rewrite Hid. apply Hs. assumption.
Qed.

Lemma update_where_id_wf (f : article -> article) (i : Z) (d : table) :
  (forall a, id (f a) = id a) ->
  (forall a, link (f a) = link a) ->
  wf_table d -> wf_table (update_where_id f i d).
Proof.
  intros Hid Hlink. unfold update_where_id. apply map_rows_wf.
  - intros a. destruct (id a =? i); [apply Hid | reflexivity].
  - intros a. destruct (id a =? i); [apply Hlink | reflexivity].
Qed.

(** The table of the initial state is well formed, and startup recovery, a
    pass of the summarizer and a request keep it so: the hypothesis
    [wf_table] of the statements above holds all along a run. *)
Lemma wf_table_is_invariant :
  wf_table (db initial_state) /\
  forall st,
    wf_table (db st) ->
    wf_table (db (startup_tasks st)) /\
    (forall prov backend, wf_table (db (fst (summarizer_pass prov backend st)))) /\
    (forall q page_arg now clock feed,
        wf_table (db (fst (get_news q page_arg now clock feed st)))).
Proof.
  split; [exact empty_table_wf |].
  intros st Hwf. split; [| split].
  - unfold startup_tasks, reset_in_progress. simpl. apply map_rows_wf; try assumption.
    + intros a. destruct (status_eqb (status a) in_progress); reflexivity.
    + intros a. destruct (status_eqb (status a) in_progress); reflexivity.
  - intros prov backend. unfold summarizer_pass.
    destruct (select_article st) as [[a |] st0] eqn:Hsel.
    + destruct (select_article_pending _ _ _ Hsel) as [_ [_ Hdb]].
      simpl. unfold store_outcome, mark_in_progress.
      apply update_where_id_wf; try reflexivity.
      apply update_where_id_wf; try reflexivity.
      rewrite Hdb. assumption.
    + simpl. unfold select_article in Hsel.
      destruct (pop_priority (PRIORITY_QUEUE st)). inversion Hsel. assumption.
  - intros q page_arg now clock feed. rewrite db_after_get_news.
    unfold load_articles. destruct (is_stale (request_cache_key q) now (db st));
      [| assumption].
    destruct (fetch_and_cache_news (request_cache_key q) clock feed (db st))
      as [d' [served |]] eqn:E; simpl.
    + destruct (fetch_and_cache_news_commit _ _ _ _ _ _ E)
        as [bozo [entries [added [_ [_ [_ [_ W]]]]]]].
      apply W. assumption.
    + rewrite (fetch_and_cache_news_raised _ _ _ _ _ E). assumption.
Qed.

(** * Further properties of the code *)

(** ** The refresh *)

Lemma insert_or_ignore_row l t src sm img s tp ts d :
  exists added,
    rows (insert_or_ignore l t src sm img s tp ts d) = rows d ++ added /\
    (List.length added <= 1)%nat /\
    Forall (fun a => ai_summary a = None /\ fetch_timestamp a = ts
                     /\ id a = sqlite_sequence d + 1) added /\
    sqlite_sequence (insert_or_ignore l t src sm img s tp ts d)
    = sqlite_sequence d + 1.
Proof.
  unfold insert_or_ignore. cbv zeta. destruct (has_link l d).
  - exists []. rewrite app_nil_r. simpl.
    split; [reflexivity |]. split; [lia |]. split; [constructor | reflexivity].
  - eexists. split; [reflexivity |]. simpl. split; [lia |].
    split; [constructor; [simpl; tauto | constructor] | reflexivity].
Qed.

(** The rows the insertion loop adds: at most one per entry, without summary,
    stamped with a reading of the clock, in increasing id order above the
    counter it started from. *)
Lemma insert_entries_rows key clock (es : list entry) :
  forall k d d',
    insert_entries key clock k es d = Ok d' ->
    exists added,
      rows d' = rows d ++ added /\
      (List.length added <= List.length es)%nat /\
      Forall (fun a => ai_summary a = None /\
                       (exists j, fetch_timestamp a = clock j) /\
                       sqlite_sequence d < id a <= sqlite_sequence d') added /\
      ids_increase added /\
      sqlite_sequence d <= sqlite_sequence d'.
Proof.
  induction es as [| e es IH]; intros k d d' H; simpl in H.
  - inversion H; subst. exists []. rewrite app_nil_r. simpl.
    split; [reflexivity |]. split; [lia |]. split; [constructor |].
    split; [exact I | lia].
  - destruct (entry_values e) as [[[[[l t] src] sm] img] |]; [| discriminate].
    destruct (insert_or_ignore_row l t src sm img pending key (clock k) d)
      as [add1 [R1 [L1 [F1 S1]]]].
    destruct (IH _ _ _ H) as [add2 [R2 [L2 [F2 [I2 S2]]]]].
    rewrite S1 in S2, F2.
    exists (add1 ++ add2). split; [rewrite R2, R1, app_assoc; reflexivity |].
    split; [rewrite length_app; simpl; lia |]. split; [| split; [| lia]].
    + apply Forall_app. split.
      * eapply Forall_impl; [| exact F1]. simpl. intros b [Hb1 [Hb2 Hb3]].
        split; [assumption |]. split; [exists k; assumption | lia].
      * eapply Forall_impl; [| exact F2]. simpl. intros b [Hb1 [Hb2 Hb3]].
        split; [assumption |]. split; [assumption | lia].
    + destruct add1 as [| a add1]; [exact I2 |].
      destruct add1 as [| a' add1]; [| simpl in L1; lia].
      simpl. split; [| exact I2].
      inversion F1 as [| ? ? [_ [_ Ha]] _]; subst.
      eapply Forall_impl; [| exact F2]. simpl. intros b [_ [_ Hb]]. lia.
Qed.

Lemma filter_none (p : article -> bool) (l : list article) :
  Forall (fun a => p a = false) l -> filter p l = [].
Proof.
  induction 1 as [| a l Ha _ IH]; simpl; [reflexivity |]. rewrite Ha. exact IH.
Qed.

Lemma filter_all (p : article -> bool) (l : list article) :
  Forall (fun a => p a = true) l -> filter p l = l.
Proof.
  induction 1 as [| a l Ha _ IH]; simpl; [reflexivity |]. rewrite Ha, IH. reflexivity.
Qed.

(** A committed refresh in full: the rows of the other topics, as they were,
    followed by the rows it added, which are the topic's rows afterwards. *)
Lemma committed_refresh_rows key clock feed d d' served :
  fetch_and_cache_news key clock feed d = (d', Ok served) ->
  exists added,
    rows d' = rows (delete_topic key d) ++ added /\
    topic_rows key d' = added /\
    (List.length added <= FEED_FETCH_COUNT)%nat /\
    served = rev added /\
    ids_increase added /\
    Forall (fun a => status a = pending /\ topic a = key /\ ai_summary a = None /\
                     (exists j, fetch_timestamp a = clock j) /\
                     sqlite_sequence d < id a) added.
Proof.
  intros H. pose proof H as H0. unfold fetch_and_cache_news in H.
  destruct feed as [| bozo entries]; [discriminate |].
  destruct (insert_entries key clock 0 (firstn FEED_FETCH_COUNT entries)
                           (delete_topic key d)) as [d1 |] eqn:E; [| discriminate].
  assert (d1 = d' /\ firstn FEED_FETCH_COUNT (select_topic_desc key d1) = served)
    as [-> <-] by (split; congruence).
  clear H.
  destruct (insert_entries_spec _ _ _ _ _ _ E) as [added [R [F _]]].
  destruct (insert_entries_rows _ _ _ _ _ _ E) as [added' [R' [L' [F' [I' _]]]]].
  assert (added' = added) as ->.
  { rewrite R in R'. apply app_inv_head in R'. congruence. }
  assert (topic_rows key d' = added) as Htopic.
  { unfold topic_rows. rewrite R, filter_app. simpl rows.
    rewrite filter_none, filter_all; [reflexivity | |].
    - eapply Forall_impl; [| exact F]. simpl. intros a [_ [Ht _]].
      apply String.eqb_eq. assumption.
    - apply Forall_forall. intros a Ha. apply filter_In in Ha.
      destruct Ha as [_ Ha]. destruct (String.eqb (topic a) key); [discriminate |].
      reflexivity. }
  assert (List.length added <= FEED_FETCH_COUNT)%nat as Hlen.
  { rewrite length_firstn in L'. lia. }
  exists added. split; [assumption |]. split; [assumption |].
  split; [assumption |]. split.
  { unfold select_topic_desc. fold (topic_rows key d'). rewrite Htopic.
    apply firstn_all2. rewrite length_rev. assumption. }
  split; [assumption |].
  rewrite Forall_forall in *. intros a Ha.
  destruct (F a Ha) as [Hs [Ht Hid]]. destruct (F' a Ha) as [Hn [Hc _]].
  repeat split; assumption.
Qed.

(** X1: a refresh that commits returns exactly the rows the topic has
    afterwards, newest first: at most FEED_FETCH_COUNT of them, all pending
    and without a summary.  The LIMIT of the final query never cuts. *)
Theorem committed_refresh_serves_the_topic :
  forall key clock feed d d' served,
    fetch_and_cache_news key clock feed d = (d', Ok served) ->
    served = select_topic_desc key d' /\
    (List.length served <= FEED_FETCH_COUNT)%nat /\
    Forall (fun a => status a = pending /\ ai_summary a = None /\ topic a = key)
           served.
Proof.
  intros key clock feed d d' served H.
  destruct (committed_refresh_rows _ _ _ _ _ _ H)
    as [added [_ [Htopic [Hlen [Hserved [_ F]]]]]].
  split; [| split].
  - unfold select_topic_desc. fold (topic_rows key d'). congruence.
  - rewrite Hserved, length_rev. assumption.
  - rewrite Hserved. apply Forall_forall. intros a Ha. apply in_rev in Ha.
    rewrite Forall_forall in F. destruct (F a Ha) as [? [? [? _]]]. tauto.
Qed.

Lemma committed_refresh_serves_the_topic_witness :
  snd three_items = Ok (select_topic_desc "X" (fst three_items)) /\
  (List.length (select_topic_desc "X" (fst three_items)) <= FEED_FETCH_COUNT)%nat.
Proof.
  destruct (committed_refresh_serves_the_topic "X"%string (fun k => 100 + Z.of_nat k)
              (Parsed false [sample_entry "https://a"; sample_entry "https://b";
                             sample_entry "https://a"])
              empty_table (fst three_items)
              (select_topic_desc "X" (fst three_items)) eq_refl) as [_ [H _]].
  split; [reflexivity | exact H].
Defined.

(** X2: a refresh of one topic, committed or not, leaves the rows of every
    other topic exactly as they were, in the same order. *)
Theorem refresh_leaves_other_topics :
  forall key other clock feed d,
    other <> key ->
    topic_rows other (fst (fetch_and_cache_news key clock feed d))
    = topic_rows other d.
Proof.
  intros key other clock feed d Hne.
  destruct (fetch_and_cache_news key clock feed d) as [d' [served |]] eqn:E.
  - destruct (committed_refresh_rows _ _ _ _ _ _ E) as [added [R [_ [_ [_ [_ F]]]]]].
    simpl fst. unfold topic_rows. rewrite R, filter_app.
    rewrite (filter_none _ added).
    + rewrite app_nil_r. unfold delete_topic. simpl rows.
      induction (rows d) as [| a l IH]; simpl; [reflexivity |].
      destruct (String.eqb (topic a) key) eqn:Ek; simpl.
      * apply String.eqb_eq in Ek.
        assert (String.eqb (topic a) other = false) as ->
            by (apply String.eqb_neq; congruence).
        exact IH.
      * destruct (String.eqb (topic a) other); [f_equal |]; exact IH.
    + eapply Forall_impl; [| exact F]. simpl. intros a [_ [Ht _]].
      apply String.eqb_neq. congruence.
  - rewrite (fetch_and_cache_news_raised _ _ _ _ _ E). reflexivity.
Qed.

Lemma refresh_leaves_other_topics_witness :
  topic_rows "__trending__"
    (fst (fetch_and_cache_news "X" (fun _ => 5000)
            (Parsed false [sample_entry "https://b"]) (db one_row_state)))
  = topic_rows "__trending__" (db one_row_state).
Proof.
  apply refresh_leaves_other_topics. discriminate.
Defined.

Lemma insert_entries_runs key clock (es : list entry) :
  forall k d,
    existsb (fun e => match entry_values e with Raised => true | Ok _ => false end) es
      = false ->
    exists d', insert_entries key clock k es d = Ok d'.
Proof.
  induction es as [| e es IH]; intros k d H; simpl in *; [eexists; reflexivity |].
  destruct (entry_values e) as [[[[[l t] src] sm] img] |]; [| discriminate].
  apply IH. exact H.
Qed.

Lemma entry_values_raises (e : entry) :
  entry_values e = Raised <->
  entry_link e = None \/ entry_title e = None \/ entry_summary e = None \/
  entry_source e = Some None.
Proof.
  unfold entry_values.
  destruct (entry_source e) as [[src |] |], (entry_link e), (entry_title e),
    (entry_summary e); split; intros H; try reflexivity; try discriminate;
    try tauto;
    destruct H as [H | [H | [H | H]]]; discriminate.
Qed.

(** X3: the refresh raises exactly when the parser raises or one of the first
    FEED_FETCH_COUNT entries has no link, no title, no summary, or a source
    without a title; an absent source or media content never makes it raise,
    and an entry beyond the first FEED_FETCH_COUNT is never looked at. *)
Theorem refresh_raises_exactly :
  forall key clock feed d,
    snd (fetch_and_cache_news key clock feed d) = Raised
    <->
    feed = ParseRaised \/
    exists bozo entries e,
      feed = Parsed bozo entries /\
      In e (firstn FEED_FETCH_COUNT entries) /\
      (entry_link e = None \/ entry_title e = None \/ entry_summary e = None \/
       entry_source e = Some None).
Proof.
  intros key clock feed d. unfold fetch_and_cache_news.
  destruct feed as [| bozo entries].
  - simpl. split; [left; reflexivity | reflexivity].
  - destruct (existsb (fun e => match entry_values e with
                                | Raised => true | Ok _ => false end)
                      (firstn FEED_FETCH_COUNT entries)) eqn:E.
    + rewrite (insert_entries_raises _ _ _ _ _ E). simpl.
      split; [| reflexivity]. intros _. right.
      apply existsb_exists in E. destruct E as [e [He Hr]].
      exists bozo, entries, e. split; [reflexivity |]. split; [assumption |].
      apply entry_values_raises. destruct (entry_values e); [discriminate | reflexivity].
    + destruct (insert_entries_runs key clock _ 0%nat (delete_topic key d) E)
        as [d' ->].
      simpl. split; [discriminate |].
      intros [H | [bozo' [entries' [e [Hf [He Hmiss]]]]]]; [discriminate |].
      inversion Hf; subst bozo' entries'. exfalso.
      apply entry_values_raises in Hmiss.
      assert (existsb (fun e => match entry_values e with
                                | Raised => true | Ok _ => false end)
                      (firstn FEED_FETCH_COUNT entries) = true) as Ht.
      { apply existsb_exists. exists e. split; [assumption |].
        rewrite Hmiss. reflexivity. }
      congruence.
Qed.

Lemma refresh_raises_exactly_witness :
  snd (fetch_and_cache_news "X" (fun _ => 0)
         (Parsed false [sample_entry "https://a";
                        mkEntry (Some "https://b"%string) (Some "headline"%string)
                                (Some "excerpt"%string) (Some None) None])
         (db one_row_state)) = Raised.
Proof.
  apply (proj2 (refresh_raises_exactly "X"%string (fun _ => 0)
                  (Parsed false [sample_entry "https://a";
                                 mkEntry (Some "https://b"%string)
                                         (Some "headline"%string)
                                         (Some "excerpt"%string) (Some None) None])
                  (db one_row_state))).
  right. eexists. eexists. eexists. split; [reflexivity |].
  split; [right; left; reflexivity |]. right. right. right. reflexivity.
Defined.

Lemma update_where_id_absent (f : article -> article) (i : Z) (d : table) :
  (forall r, In r (rows d) -> id r <> i) -> update_where_id f i d = d.
Proof.
  intros H. destruct d as [rs sq]. unfold update_where_id. simpl in *. f_equal.
  rewrite <- (map_id rs) at 2. apply map_ext_in. intros r Hr.
  destruct (id r =? i) eqn:E; [| reflexivity].
  apply Z.eqb_eq in E. exfalso. exact (H r Hr E).
Qed.

(** X4: row ids are never reused.  Once a refresh has replaced the rows of a
    topic, the id of a replaced row names no row any more, so a pass that had
    selected such a row before the refresh changes nothing when it claims and
    finalizes it afterwards. *)
Theorem replaced_row_is_out_of_reach :
  forall key clock feed d d' served a,
    wf_table d ->
    fetch_and_cache_news key clock feed d = (d', Ok served) ->
    In a (rows d) ->
    topic a = key ->
    row_at (id a) d' = None /\
    forall st summary, db st = d' -> finalize a summary (claim a st) = st.
Proof.
  intros key clock feed d d' served a [Hid [_ Hseq]] Hfetch Ha Ht.
  destruct (committed_refresh_rows _ _ _ _ _ _ Hfetch) as [added [R [_ [_ [_ [_ F]]]]]].
  assert (forall r, In r (rows d') -> id r <> id a) as Habsent.
  { intros r Hr Heq. rewrite R in Hr. apply in_app_or in Hr.
    destruct Hr as [Hr | Hr].
    - unfold delete_topic in Hr. simpl in Hr. apply filter_In in Hr.
      destruct Hr as [Hr Hk].
      assert (r = a) as -> by (apply (NoDup_map_In_eq id (rows d)); assumption).
      rewrite Ht, String.eqb_refl in Hk. discriminate.
    - rewrite Forall_forall in F, Hseq.
      destruct (F r Hr) as [_ [_ [_ [_ Hnew]]]]. specialize (Hseq a Ha). lia. }
  split.
  - unfold row_at. destruct (find (fun r => id r =? id a) (rows d')) as [r |] eqn:E;
      [| reflexivity].
    apply find_some in E. destruct E as [Hr Heq]. apply Z.eqb_eq in Heq.
    exfalso. exact (Habsent r Hr Heq).
  - intros st summary Hdb. destruct st as [dd q]. simpl in Hdb. subst dd.
    unfold finalize, claim, store_outcome, mark_in_progress. simpl.
    rewrite (update_where_id_absent _ _ d' Habsent).
    rewrite (update_where_id_absent _ _ d' Habsent). reflexivity.
Qed.

Lemma one_row_state_wf : wf_table (db one_row_state).
Proof. exact hinted_state_wf. Defined.

Lemma replaced_row_is_out_of_reach_witness :
  row_at 1 (fst (fetch_and_cache_news "__trending__" (fun _ => 5000)
                   (Parsed false [sample_entry "https://a"]) (db one_row_state)))
  = None.
Proof.
  exact (proj1 (replaced_row_is_out_of_reach "__trending__"%string (fun _ => 5000)
                  (Parsed false [sample_entry "https://a"]) (db one_row_state)
                  _ _ _ one_row_state_wf eq_refl (or_introl eq_refl) eq_refl)).
Defined.

Lemma load_articles_stale key now clock feed d :
  is_stale key now d = true ->
  load_articles key now clock feed d = fetch_and_cache_news key clock feed d.
Proof. unfold load_articles. intros ->. reflexivity. Qed.

Lemma get_news_fresh q page_arg now clock feed st :
  is_stale (request_cache_key q) now (db st) = false ->
  db (fst (get_news q page_arg now clock feed st)) = db st /\
  snd (get_news q page_arg now clock feed st)
  = Ok (paginate (select_topic_desc (request_cache_key q) (db st))
                 (request_page page_arg)).
Proof.
  intros Hfresh. unfold get_news, load_articles. rewrite Hfresh.
  destruct (paginate (select_topic_desc (request_cache_key q) (db st))
                     (request_page page_arg)) as [items more].
  split; reflexivity.
Qed.

(** X5: after a request that refreshed a topic and stored at least one row
    for it, every request for the topic made while no reading of the
    refresh's clock is older than the expiration window is served from the
    table: the feed is not consulted, the table does not change, and the
    page is cut from the rows the refresh stored.  A refresh that stored no
    row leaves the topic stale at every later time. *)
Theorem refreshed_topic_is_served_from_the_cache :
  forall q page_arg now clock feed st st1 items more,
    is_stale (request_cache_key q) now (db st) = true ->
    get_news q page_arg now clock feed st = (st1, Ok (items, more)) ->
    (topic_rows (request_cache_key q) (db st1) <> [] ->
     forall now2,
       (forall j, now2 - clock j <= CACHE_EXPIRATION_SECONDS) ->
       is_stale (request_cache_key q) now2 (db st1) = false /\
       forall page_arg2 clock2 feed2,
         db (fst (get_news q page_arg2 now2 clock2 feed2 st1)) = db st1 /\
         snd (get_news q page_arg2 now2 clock2 feed2 st1)
         = Ok (paginate (select_topic_desc (request_cache_key q) (db st1))
                        (request_page page_arg2))) /\
    (topic_rows (request_cache_key q) (db st1) = [] ->
     forall now2, is_stale (request_cache_key q) now2 (db st1) = true).
Proof.
  intros q page_arg now clock feed st st1 items more Hstale Hreq.
  apply get_news_ok_inv in Hreq. destruct Hreq as [d' [articles [Hload [_ Hst1]]]].
  rewrite load_articles_stale in Hload by assumption.
  destruct (committed_refresh_rows _ _ _ _ _ _ Hload)
    as [added [_ [Htopic [_ [_ [_ F]]]]]].
  subst st1. simpl db. split.
  - intros Hrows now2 Hclock.
    assert (is_stale (request_cache_key q) now2 d' = false) as Hfresh.
    { destruct (is_stale (request_cache_key q) now2 d') eqn:E; [| reflexivity].
      apply is_stale_latest in E. destruct E as [E | [a [l [E Hold]]]];
        [contradiction |].
      exfalso. pose proof (last_in a l) as Hin. rewrite <- E, Htopic in Hin.
      rewrite Forall_forall in F. destruct (F _ Hin) as [_ [_ [_ [[j Hj] _]]]].
      specialize (Hclock j). lia. }
    split; [assumption |]. intros page_arg2 clock2 feed2.
    apply (get_news_fresh q page_arg2 now2 clock2 feed2
             (mkState d' (update_priority_queue (request_page page_arg) items
                                                (PRIORITY_QUEUE st)))).
    assumption.
  - intros Hrows now2. apply is_stale_latest. left. assumption.
Qed.

Lemma refreshed_topic_is_served_from_the_cache_witness :
  is_stale "__trending__" 1500 seven_rows = false /\
  is_stale "__trending__" 9000
           (db (fst (get_news None None 5000 (fun _ => 5000) (Parsed true [])
                              one_row_state))) = true.
Proof.
  split.
  - assert (get_news None None 0 (fun k => 1000 + Z.of_nat k)
              (Parsed false (map sample_entry
                 ["https://1"; "https://2"; "https://3"; "https://4";
                  "https://5"; "https://6"; "https://7"]%string))
              initial_state
            = (mkState seven_rows
                 ["https://7"; "https://6"; "https://5"; "https://4";
                  "https://3"; "https://2"]%string,
               Ok (firstn 6 (rev (rows seven_rows)), true))) as H by reflexivity.
    refine (proj1 (proj1 (refreshed_topic_is_served_from_the_cache
                            None None 0 _ _ initial_state _ _ _ eq_refl H)
                         _ 1500 _)).
    + discriminate.
    + intros j. unfold CACHE_EXPIRATION_SECONDS. lia.
  - assert (get_news None None 5000 (fun _ => 5000) (Parsed true []) one_row_state
            = (fst (get_news None None 5000 (fun _ => 5000) (Parsed true [])
                             one_row_state), Ok ([], false))) as H by reflexivity.
    exact (proj2 (refreshed_topic_is_served_from_the_cache
                    None None 5000 _ _ one_row_state _ _ _ eq_refl H)
                 eq_refl 9000).
Defined.

(** ** Pagination *)

Lemma py_slice_window (l : list article) (a b : Z) :
  0 <= a -> a <= b ->
  py_slice l a b = firstn (Z.to_nat (b - a)) (skipn (Z.to_nat a) l).
Proof.
  intros Ha Hab. unfold py_slice, slice_bound.
  set (len := Z.of_nat (List.length l)).
  assert ((a <? 0) = false) as -> by (apply Z.ltb_ge; lia).
  assert ((b <? 0) = false) as -> by (apply Z.ltb_ge; lia).
  destruct (Z_lt_le_dec a len) as [Hlt | Hge].
  - replace (Z.min a len) with a by lia.
    destruct (Z_le_gt_dec b len) as [Hb | Hb].
    + replace (Z.min b len) with b by lia. reflexivity.
    + replace (Z.min b len) with len by lia.
      rewrite !firstn_all2; [reflexivity | |]; rewrite length_skipn; unfold len in *; lia.
  - replace (Z.min a len) with len by lia. replace (Z.min b len) with len by lia.
    replace (len - len) with 0 by lia. simpl firstn.
    rewrite (skipn_all2 l) by (unfold len in *; lia).
    rewrite firstn_nil. reflexivity.
Qed.

Lemma first_rows_split (a b : nat) (l : list article) :
  firstn (a + b) l = firstn a l ++ firstn b (skipn a l).
Proof.
  revert l. induction a as [| a IH]; intros l; [reflexivity |].
  destruct l as [| x l]; simpl.
  - rewrite firstn_nil. reflexivity.
  - rewrite IH. reflexivity.
Qed.

Lemma page_window (articles : list article) (p : Z) :
  1 <= p ->
  fst (paginate articles p)
  = firstn (Z.to_nat PAGE_SIZE) (skipn (Z.to_nat ((p - 1) * PAGE_SIZE)) articles).
Proof.
  intros Hp. unfold paginate. simpl fst.
  assert (PAGE_SIZE = 6) as HP by reflexivity.
  rewrite py_slice_window by lia. f_equal. f_equal. lia.
Qed.

(** X6: for a page number from 1 on, the page is the window of PAGE_SIZE
    articles that starts after the earlier pages, it never holds more than
    PAGE_SIZE articles, and [has_more] is true exactly when the next page
    holds an article. *)
Theorem page_is_a_window :
  forall articles page,
    1 <= page ->
    fst (paginate articles page)
    = firstn (Z.to_nat PAGE_SIZE)
             (skipn (Z.to_nat ((page - 1) * PAGE_SIZE)) articles) /\
    Z.of_nat (List.length (fst (paginate articles page))) <= PAGE_SIZE /\
    (snd (paginate articles page) = true <->
     fst (paginate articles (page + 1)) <> []).
Proof.
  intros articles page Hpage.
  assert (PAGE_SIZE = 6) as HP by reflexivity.
  pose proof (page_window articles) as Hwin.
  split; [apply Hwin; assumption |]. split.
  - rewrite (Hwin page Hpage), length_firstn. lia.
  - rewrite (Hwin (page + 1)) by lia. unfold paginate. simpl snd.
    replace ((page + 1 - 1) * PAGE_SIZE) with ((page - 1) * PAGE_SIZE + PAGE_SIZE)
      by lia.
    set (stop := (page - 1) * PAGE_SIZE + PAGE_SIZE).
    rewrite Z.ltb_lt. split.
    + intros Hlt Hnil. apply (f_equal (@List.length article)) in Hnil.
      rewrite length_firstn, length_skipn in Hnil.
      change (@List.length article []) with 0%nat in Hnil.
      unfold stop, PAGE_SIZE in *. lia.
    + intros Hne. destruct (Z_lt_le_dec stop (Z.of_nat (List.length articles)))
        as [Hlt | Hge]; [assumption |].
      exfalso. apply Hne.
      rewrite skipn_all2 by (unfold stop, PAGE_SIZE in *; lia).
      apply firstn_nil.
Qed.

Lemma page_is_a_window_witness :
  fst (paginate (rows seven_rows) 2)
  = firstn (Z.to_nat PAGE_SIZE)
           (skipn (Z.to_nat ((2 - 1) * PAGE_SIZE)) (rows seven_rows)) /\
  (snd (paginate (rows seven_rows) 1) = true <->
   fst (paginate (rows seven_rows) (1 + 1)) <> []).
Proof.
  split.
  - apply (page_is_a_window (rows seven_rows) 2). discriminate.
  - apply (page_is_a_window (rows seven_rows) 1). discriminate.
Defined.

(** X7: the pages 1 to k, put one after the other, are the first
    k * PAGE_SIZE articles: no article is skipped or served twice, and once
    k * PAGE_SIZE reaches the length of the list they are the whole list. *)
Theorem pages_cover_the_list :
  forall articles k,
    pages_upto k articles = firstn (k * Z.to_nat PAGE_SIZE) articles /\
    ((List.length articles <= k * Z.to_nat PAGE_SIZE)%nat ->
     pages_upto k articles = articles).
Proof.
  intros articles k.
  assert (pages_upto k articles = firstn (k * Z.to_nat PAGE_SIZE) articles) as H.
  { induction k as [| k IH]; [reflexivity |].
    change (pages_upto (S k) articles)
      with (pages_upto k articles ++ fst (paginate articles (Z.of_nat (S k)))).
    rewrite IH.
    rewrite (page_window articles (Z.of_nat (S k))) by lia.
    replace (Z.to_nat ((Z.of_nat (S k) - 1) * PAGE_SIZE))
      with (k * Z.to_nat PAGE_SIZE)%nat
      by (assert (PAGE_SIZE = 6) as -> by reflexivity; lia).
    rewrite <- first_rows_split. f_equal. lia. }
  split; [exact H |]. intros Hlen. rewrite H. apply firstn_all2. assumption.
Qed.

Lemma pages_cover_the_list_witness :
  pages_upto 2 (rows seven_rows) = rows seven_rows.
Proof.
  apply (proj2 (pages_cover_the_list (rows seven_rows) 2)).
  vm_compute. repeat constructor.
Defined.

Lemma py_slice_up_to_zero (l : list article) (a : Z) :
  a <= 0 -> py_slice l a 0 = [].
Proof.
  intros Ha. unfold py_slice, slice_bound.
  set (len := Z.of_nat (List.length l)).
  assert (0 <= len) by (unfold len; lia).
  change (0 <? 0) with false. cbv iota.
  replace (Z.min 0 len) with 0 by lia.
  destruct (a <? 0) eqn:E.
  - replace (Z.to_nat (0 - Z.max 0 (a + len))) with 0%nat by lia. reflexivity.
  - apply Z.ltb_ge in E.
    replace (Z.to_nat (0 - Z.min a len)) with 0%nat by lia. reflexivity.
Qed.

(** X8: a page number of 0 or below is used as it is.  Page 0 serves no
    article; for every page number below 1 the queue is not reset, and
    [has_more] is true unless the page is 0 and the list is empty. *)
Theorem page_below_one :
  forall q page_arg now clock feed st d' articles,
    request_page page_arg <= 0 ->
    load_articles (request_cache_key q) now clock feed (db st) = (d', Ok articles) ->
    exists items,
      get_news q page_arg now clock feed st
      = (mkState d' (mark_on_screen items (PRIORITY_QUEUE st)),
         Ok (items, negb ((request_page page_arg =? 0)
                          && (List.length articles =? 0)%nat))) /\
      (request_page page_arg = 0 -> items = []).
Proof.
  intros q page_arg now clock feed st d' articles Hpage Hload.
  unfold get_news. rewrite Hload. unfold paginate, update_priority_queue.
  assert ((request_page page_arg =? 1) = false) as -> by (apply Z.eqb_neq; lia).
  set (page := request_page page_arg) in *.
  exists (py_slice articles ((page - 1) * PAGE_SIZE) ((page - 1) * PAGE_SIZE + PAGE_SIZE)).
  split.
  - f_equal. f_equal. f_equal.
    destruct (page =? 0) eqn:E0.
    + apply Z.eqb_eq in E0. rewrite E0.
      destruct articles; reflexivity.
    + apply Z.eqb_neq in E0. simpl negb. apply Z.ltb_lt.
      unfold PAGE_SIZE. lia.
  - intros E0. rewrite E0. apply py_slice_up_to_zero. unfold PAGE_SIZE. lia.
Qed.

Lemma page_below_one_witness :
  exists items,
    get_news None (Some "0"%string) 1000 (fun _ => 0) ParseRaised one_row_state
    = (mkState (db one_row_state) (mark_on_screen items []), Ok (items, true)) /\
    (0 = 0 -> items = []).
Proof.
  refine (page_below_one None (Some "0"%string) 1000 (fun _ => 0) ParseRaised
            one_row_state (db one_row_state) (rows (db one_row_state)) _ eq_refl).
  discriminate.
Defined.

(** ** The queue fed by the query route *)

Lemma load_articles_serves_the_table key now clock feed d d' articles :
  load_articles key now clock feed d = (d', Ok articles) ->
  articles = select_topic_desc key d'.
Proof.
  unfold load_articles. destruct (is_stale key now d).
  - intros H.
    destruct (committed_refresh_rows _ _ _ _ _ _ H) as [added [_ [Ht [_ [Hs _]]]]].
    unfold select_topic_desc. fold (topic_rows key d'). congruence.
  - intros H. inversion H. reflexivity.
Qed.

Lemma load_articles_wf key now clock feed d :
  wf_table d -> wf_table (fst (load_articles key now clock feed d)).
Proof.
  intros Hwf. unfold load_articles. destruct (is_stale key now d); [| assumption].
  destruct (fetch_and_cache_news key clock feed d) as [d' [served |]] eqn:E; simpl.
  - destruct (fetch_and_cache_news_commit _ _ _ _ _ _ E)
      as [bozo [entries [added [_ [_ [_ [_ W]]]]]]].
    apply W. assumption.
  - rewrite (fetch_and_cache_news_raised _ _ _ _ _ E). assumption.
Qed.

Lemma slice_keeps_distinct (l : list article) (a b : Z) :
  NoDup (map link l) -> NoDup (map link (py_slice l a b)).
Proof.
  intros H. unfold py_slice.
  set (n := Z.to_nat _). set (m := Z.to_nat _).
  rewrite <- (firstn_skipn m l), map_app in H. apply NoDup_app_remove_l in H.
  rewrite <- (firstn_skipn n (skipn m l)), map_app in H.
  apply NoDup_app_remove_r in H. exact H.
Qed.

Lemma slice_is_part (l : list article) (a b : Z) (x : article) :
  In x (py_slice l a b) -> In x l.
Proof.
  unfold py_slice. set (n := Z.to_nat _). set (m := Z.to_nat _). intros H.
  rewrite <- (firstn_skipn m l). apply in_or_app. right.
  rewrite <- (firstn_skipn n (skipn m l)). apply in_or_app. left. exact H.
Qed.

Lemma mark_on_screen_distinct (arts : list article) :
  forall q, NoDup (q ++ pending_links arts) ->
            mark_on_screen arts q = q ++ pending_links arts.
Proof.
  unfold pending_links.
  induction arts as [| a rest IH]; intros q H; simpl in *.
  - rewrite app_nil_r. reflexivity.
  - destruct (status_eqb (status a) pending); simpl in *; [| apply IH; assumption].
    pose proof (NoDup_remove_2 _ _ _ H) as Hfresh.
    destruct (existsb (String.eqb (link a)) q) eqn:E.
    + exfalso. apply Hfresh. apply in_or_app. left.
      apply existsb_eqb_true_In. assumption.
    + simpl. rewrite IH.
      * rewrite <- app_assoc. reflexivity.
      * rewrite <- app_assoc. exact H.
Qed.

(** X9: on a well-formed table, an answered request for page 1 leaves in the
    queue exactly the links of the pending articles of the page it returns,
    in page order, and each of them is the link of a pending row of the
    table. *)
Theorem first_page_sets_the_queue :
  forall q page_arg now clock feed st st1 items more,
    wf_table (db st) ->
    request_page page_arg = 1 ->
    get_news q page_arg now clock feed st = (st1, Ok (items, more)) ->
    PRIORITY_QUEUE st1 = pending_links items /\
    forall k, In k (PRIORITY_QUEUE st1) ->
              exists a, In a (rows (db st1)) /\ link a = k /\ status a = pending.
Proof.
  intros q page_arg now clock feed st st1 items more Hwf Hpage Hreq.
  apply get_news_ok_inv in Hreq. destruct Hreq as [d' [articles [Hload [Hpg Hst1]]]].
  pose proof (load_articles_wf (request_cache_key q) now clock feed (db st) Hwf) as Hwf'.
  rewrite Hload in Hwf'. simpl in Hwf'.
  pose proof (load_articles_serves_the_table _ _ _ _ _ _ _ Hload) as Harts.
  assert (items = py_slice articles ((request_page page_arg - 1) * PAGE_SIZE)
                    ((request_page page_arg - 1) * PAGE_SIZE + PAGE_SIZE)) as Hitems.
  { unfold paginate in Hpg. inversion Hpg. reflexivity. }
  assert (NoDup (map link articles)) as Hnd.
  { rewrite Harts. unfold select_topic_desc. rewrite map_rev. apply NoDup_rev.
    apply filter_keeps_distinct. apply Hwf'. }
  assert (PRIORITY_QUEUE st1 = pending_links items) as Hq.
  { subst st1. simpl. rewrite Hpage. unfold update_priority_queue. simpl.
    apply (mark_on_screen_distinct items []). simpl.
    unfold pending_links. apply filter_keeps_distinct.
    rewrite Hitems. apply slice_keeps_distinct. assumption. }
  split; [exact Hq |].
  intros k Hk. rewrite Hq in Hk. unfold pending_links in Hk.
  apply in_map_iff in Hk. destruct Hk as [a [Hka Ha]].
  apply filter_In in Ha. destruct Ha as [Ha Hp]. apply status_eqb_eq in Hp.
  exists a. split; [| split; assumption].
  subst st1. simpl. rewrite Hitems in Ha. apply slice_is_part in Ha.
  rewrite Harts in Ha. unfold select_topic_desc in Ha. apply in_rev in Ha.
  apply filter_In in Ha. tauto.
Qed.

Lemma seven_rows_wf : wf_table seven_rows.
Proof.
  destruct (fetch_and_cache_news_commit "__trending__"%string
              (fun k => 1000 + Z.of_nat k)
              (Parsed false (map sample_entry
                 ["https://1"; "https://2"; "https://3"; "https://4";
                  "https://5"; "https://6"; "https://7"]%string))
              empty_table seven_rows (rev (rows seven_rows)) eq_refl)
    as [bozo [entries [added [_ [_ [_ [_ W]]]]]]].
  exact (W empty_table_wf).
Qed.

Lemma first_page_sets_the_queue_witness :
  PRIORITY_QUEUE (fst session_page1)
  = pending_links (served_page (snd session_page1)).
Proof.
  assert (session_page1
          = (fst session_page1, Ok (served_page (snd session_page1), true))) as H
    by reflexivity.
  exact (proj1 (first_page_sets_the_queue None None 1010 (fun _ => 1010) ParseRaised
                  (mkState seven_rows ["https://old"%string]) _ _ _
                  seven_rows_wf eq_refl H)).
Defined.

(** X10: an answered request for any page other than 1 keeps the queue it
    finds as the front of the new queue, in the same order; what it adds
    behind are pending links of the page it returns. *)
Theorem later_page_extends_the_queue :
  forall q page_arg now clock feed st st1 items more,
    request_page page_arg <> 1 ->
    get_news q page_arg now clock feed st = (st1, Ok (items, more)) ->
    exists added,
      PRIORITY_QUEUE st1 = PRIORITY_QUEUE st ++ added /\
      forall k, In k added <->
                In k (pending_links items) /\ ~ In k (PRIORITY_QUEUE st).
Proof.
  intros q page_arg now clock feed st st1 items more Hpage Hreq.
  apply get_news_ok_inv in Hreq. destruct Hreq as [d' [articles [_ [_ Hst1]]]].
  subst st1. simpl. unfold update_priority_queue.
  assert ((request_page page_arg =? 1) = false) as -> by (apply Z.eqb_neq; assumption).
  apply mark_on_screen_appends.
Qed.

Lemma later_page_extends_the_queue_witness :
  exists added,
    PRIORITY_QUEUE (fst session_page2) = PRIORITY_QUEUE (fst session_page1) ++ added /\
    forall k, In k added <->
              In k (pending_links (served_page (snd session_page2))) /\
              ~ In k (PRIORITY_QUEUE (fst session_page1)).
Proof.
  assert (session_page2
          = (fst session_page2, Ok (served_page (snd session_page2), false))) as H
    by reflexivity.
  refine (later_page_extends_the_queue None (Some "2"%string) 1020 (fun _ => 1020)
            ParseRaised (fst session_page1) _ _ _ _ H).
  discriminate.
Defined.

(** ** Normalisation of texts *)

Lemma lstrip_eq (b1 : ascii) (r1 : string) :
  lstrip (String b1 r1)
  = if is_py_space b1 then lstrip r1
    else match r1 with
         | EmptyString => String b1 r1
         | String b2 r2 =>
             if is_py_space2 b1 b2 then lstrip r2
             else match r2 with
                  | EmptyString => String b1 r1
                  | String b3 r3 =>
                      if is_py_space3 b1 b2 b3 then lstrip r3 else String b1 r1
                  end
         end.
Proof. reflexivity. Qed.

Lemma rstrip_eq (b : ascii) (r : string) :
  rstrip (String b r)
  = match lstrip (String b r) with
    | EmptyString => EmptyString
    | String _ _ => String b (rstrip r)
    end.
Proof. reflexivity. Qed.

(** Facts about [lstrip] go by induction on a bound of the length, since it
    recurses up to three bytes further on. *)
Lemma lstrip_shortens (n : nat) :
  forall s, (String.length s <= n)%nat ->
            (String.length (lstrip s) <= String.length s)%nat.
Proof.
  induction n as [| n IH]; intros s Hn.
  - destruct s; [simpl; lia | simpl in Hn; lia].
  - destruct s as [| b1 r1]; [simpl; lia |]. rewrite lstrip_eq. simpl in Hn.
    destruct (is_py_space b1); [specialize (IH r1); simpl; lia |].
    destruct r1 as [| b2 r2]; [lia |]. simpl in Hn.
    destruct (is_py_space2 b1 b2); [specialize (IH r2); simpl; lia |].
    destruct r2 as [| b3 r3]; [lia |]. simpl in Hn.
    destruct (is_py_space3 b1 b2 b3); [specialize (IH r3); simpl; lia | lia].
Qed.

Lemma lstrip_not_longer (s : string) :
  (String.length (lstrip s) <= String.length s)%nat.
Proof. apply (lstrip_shortens (String.length s)). lia. Qed.

Lemma lstrip_of_space_then (n : nat) (w : string) :
  forall a, (String.length a <= n)%nat ->
            lstrip a = EmptyString -> lstrip (a ++ w) = lstrip w.
Proof.
  induction n as [| n IH]; intros a Hn Ha.
  - destruct a; [reflexivity | simpl in Hn; lia].
  - destruct a as [| b1 r1]; [reflexivity |]. simpl in Hn.
    change (String b1 r1 ++ w)%string with (String b1 (r1 ++ w)).
    rewrite lstrip_eq in Ha. rewrite lstrip_eq.
    destruct (is_py_space b1); [apply IH; [lia | assumption] |].
    destruct r1 as [| b2 r2]; [discriminate |]. simpl in Hn.
    change (String b2 r2 ++ w)%string with (String b2 (r2 ++ w)). cbv iota.
    destruct (is_py_space2 b1 b2); [apply IH; [lia | assumption] |].
    destruct r2 as [| b3 r3]; [discriminate |]. simpl in Hn.
    change (String b3 r3 ++ w)%string with (String b3 (r3 ++ w)). cbv iota.
    destruct (is_py_space3 b1 b2 b3); [apply IH; [lia | assumption] | discriminate].
Qed.

(** What [rstrip] cuts off is white space only. *)
Lemma rstrip_cut (s : string) :
  exists w, s = (rstrip s ++ w)%string /\ lstrip w = EmptyString.
Proof.
  induction s as [| b r IH]; [exists EmptyString; split; reflexivity |].
  rewrite rstrip_eq. destruct (lstrip (String b r)) eqn:E.
  - exists (String b r). split; [reflexivity | assumption].
  - destruct IH as [w [Hr Hw]]. exists w. split; [| assumption].
    simpl. rewrite <- Hr. reflexivity.
Qed.

Lemma rstrip_twice (s : string) : rstrip (rstrip s) = rstrip s.
Proof.
  induction s as [| b r IH]; [reflexivity |].
  rewrite rstrip_eq. destruct (lstrip (String b r)) eqn:E; [reflexivity |].
  rewrite rstrip_eq, IH.
  destruct (lstrip (String b (rstrip r))) eqn:E'; [| reflexivity].
  exfalso. destruct (rstrip_cut r) as [w [Hr Hw]].
  assert (lstrip (String b r) = EmptyString) as H0.
  { rewrite Hr at 1. change (String b (rstrip r ++ w)) with (String b (rstrip r) ++ w)%string.
    rewrite (lstrip_of_space_then _ w (String b (rstrip r)) (le_n _) E'). assumption. }
  congruence.
Qed.

(** A text without white space at its front keeps none there when its end
    is stripped. *)
Lemma rstrip_keeps_clean_front (t : string) :
  lstrip t = t -> lstrip (rstrip t) = rstrip t.
Proof.
  destruct t as [| b1 r1]; [reflexivity |]. intros H.
  rewrite rstrip_eq, H.
  assert (forall r, (String.length r < String.length (String b1 r1))%nat ->
                    lstrip r <> String b1 r1) as Hshort.
  { intros r Hr Heq. pose proof (lstrip_not_longer r) as Hl. rewrite Heq in Hl. lia. }
  rewrite lstrip_eq in H. rewrite lstrip_eq.
  destruct (is_py_space b1); [exfalso; apply (Hshort r1); [simpl; lia | assumption] |].
  destruct r1 as [| b2 r2]; [reflexivity |].
  rewrite rstrip_eq. destruct (lstrip (String b2 r2)); [reflexivity |].
  destruct (is_py_space2 b1 b2);
    [exfalso; apply (Hshort r2); [simpl; lia | assumption] |].
  destruct r2 as [| b3 r3]; [reflexivity |].
  rewrite rstrip_eq. destruct (lstrip (String b3 r3)); [reflexivity |].
  destruct (is_py_space3 b1 b2 b3);
    [exfalso; apply (Hshort r3); [simpl; lia | assumption] | reflexivity].
Qed.

Lemma lstrip_twice (n : nat) :
  forall s, (String.length s <= n)%nat -> lstrip (lstrip s) = lstrip s.
Proof.
  induction n as [| n IH]; intros s Hn.
  - destruct s; [reflexivity | simpl in Hn; lia].
  - destruct s as [| b1 r1]; [reflexivity |]. simpl in Hn.
    rewrite (lstrip_eq b1 r1).
    destruct (is_py_space b1) eqn:E1; [apply IH; lia |].
    destruct r1 as [| b2 r2]; [rewrite lstrip_eq, E1; reflexivity |]. simpl in Hn.
    destruct (is_py_space2 b1 b2) eqn:E2; [apply IH; lia |].
    destruct r2 as [| b3 r3]; [rewrite lstrip_eq, E1, E2; reflexivity |]. simpl in Hn.
    destruct (is_py_space3 b1 b2 b3) eqn:E3; [apply IH; lia |].
    rewrite lstrip_eq, E1, E2, E3. reflexivity.
Qed.

Lemma strip_twice (s : string) : strip (strip s) = strip s.
Proof.
  unfold strip.
  rewrite (rstrip_keeps_clean_front (lstrip s)
             (lstrip_twice _ s (le_n _))).
  apply rstrip_twice.
Qed.

(** X11: the cache key of a request is never empty, carries no white space
    at either end, and is the same for two queries that differ only by white
    space around them; a query of white space alone names the default
    topic. *)
Theorem cache_key_is_normalised :
  forall q,
    request_cache_key q <> EmptyString /\
    strip (request_cache_key q) = request_cache_key q /\
    (forall s, request_cache_key (Some (strip s)) = request_cache_key (Some s)) /\
    (forall s, strip s = EmptyString ->
               request_cache_key (Some s) = request_cache_key None).
Proof.
  intros q. unfold request_cache_key. split; [| split; [| split]].
  - destruct (strip _); discriminate.
  - destruct (strip match q with Some s => s | None => EmptyString end) eqn:E;
      [reflexivity |].
    rewrite <- E. apply strip_twice.
  - intros s. rewrite strip_twice. reflexivity.
  - intros s ->. reflexivity.
Qed.

Lemma cache_key_is_normalised_witness :
  request_cache_key
    (Some (String (ascii_of_nat 194) (String (ascii_of_nat 160)
             (String (ascii_of_nat 9) EmptyString))))
  = request_cache_key None.
Proof.
  apply (proj2 (proj2 (proj2 (cache_key_is_normalised None)))). reflexivity.
Defined.

Lemma lstrip_keeps_closing (c : ascii) (n : nat) :
  is_py_space c = false ->
  (forall b, is_py_space2 b c = false) ->
  (forall b b', is_py_space3 b b' c = false) ->
  forall a, (String.length a <= n)%nat ->
            lstrip (a ++ String c EmptyString) <> EmptyString.
Proof.
  intros H1 H2 H3. induction n as [| n IH]; intros a Hn.
  - destruct a; [| simpl in Hn; lia]. simpl. rewrite H1. discriminate.
  - destruct a as [| b1 r1]; [simpl; rewrite H1; discriminate |]. simpl in Hn.
    change (String b1 r1 ++ String c EmptyString)%string
      with (String b1 (r1 ++ String c EmptyString)).
    rewrite lstrip_eq.
    destruct (is_py_space b1); [apply IH; lia |].
    destruct r1 as [| b2 r2].
    + simpl. rewrite H2. discriminate.
    + simpl in Hn.
      change (String b2 r2 ++ String c EmptyString)%string
        with (String b2 (r2 ++ String c EmptyString)).
      cbv iota.
      destruct (is_py_space2 b1 b2); [apply IH; lia |].
      destruct r2 as [| b3 r3].
      * simpl. rewrite H3. discriminate.
      * simpl in Hn.
        change (String b3 r3 ++ String c EmptyString)%string
          with (String b3 (r3 ++ String c EmptyString)).
        cbv iota.
        destruct (is_py_space3 b1 b2 b3); [apply IH; lia | discriminate].
Qed.

Lemma rstrip_closed_text (s : string) (c : ascii) :
  is_py_space c = false ->
  (forall b, is_py_space2 b c = false) ->
  (forall b b', is_py_space3 b b' c = false) ->
  rstrip (s ++ String c EmptyString) = (s ++ String c EmptyString)%string.
Proof.
  intros H1 H2 H3. induction s as [| x s IH].
  - simpl. rewrite H1. reflexivity.
  - change (String x s ++ String c EmptyString)%string
      with (String x (s ++ String c EmptyString)).
    rewrite rstrip_eq, IH.
    destruct (lstrip (String x (s ++ String c EmptyString))) eqn:E; [| reflexivity].
    exfalso.
    apply (lstrip_keeps_closing c _ H1 H2 H3 (String x s) (le_n _)). exact E.
Qed.

(** X12: the text [get_ai_summary] returns, the backend's answer or the
    diagnostic, carries no white space at either end; this is the text a
    pass stores. *)
Theorem summary_text_is_stripped :
  forall prov backend prompt,
    strip (get_ai_summary prov backend prompt) = get_ai_summary prov backend prompt.
Proof.
  intros prov backend prompt. unfold get_ai_summary.
  destruct (backend prompt) as [text |]; [apply strip_twice |].
  unfold strip.
  change (lstrip ("Error: AI summarization failed. Provider: " ++ prov ++ ".")%string)
    with ("Error: AI summarization failed. Provider: " ++ prov ++ ".")%string.
  apply (rstrip_closed_text
           ("Error: AI summarization failed. Provider: " ++ prov) "."%char);
    reflexivity.
Qed.

(** ** Selection by the summarizer *)

Lemma select_pending_by_link_found (d : table) (a : article) :
  NoDup (map link (rows d)) ->
  In a (rows d) ->
  status a = pending ->
  select_pending_by_link (link a) d = Some a.
Proof.
  intros Hnd Ha Hp. unfold select_pending_by_link.
  destruct (find (fun r => String.eqb (link r) (link a)
                           && status_eqb (status r) pending) (rows d))
    as [b |] eqn:E.
  - apply find_some in E. destruct E as [Hb Hc].
    apply andb_true_iff in Hc. destruct Hc as [Hl _]. apply String.eqb_eq in Hl.
    f_equal. apply (NoDup_map_In_eq link (rows d)); assumption.
  - exfalso. pose proof (find_none _ _ E a Ha) as H. simpl in H.
    rewrite String.eqb_refl, Hp in H. discriminate.
Qed.

Lemma queue_after_pass prov backend st :
  PRIORITY_QUEUE (fst (summarizer_pass prov backend st))
  = snd (pop_priority (PRIORITY_QUEUE st)).
Proof.
  unfold summarizer_pass, select_article.
  destruct (pop_priority (PRIORITY_QUEUE st)) as [hint q']. simpl.
  match goal with |- context [match ?x with Some _ => _ | None => _ end] =>
    destruct x end; reflexivity.
Qed.

(** X13: when the head of the queue is the (non-empty) link of a pending row
    of a well-formed table, the pass summarizes that row, whatever other
    pending rows the table holds, and takes the hint off the queue. *)
Theorem hinted_row_is_summarized_first :
  forall prov backend st hint rest a,
    wf_table (db st) ->
    PRIORITY_QUEUE st = hint :: rest ->
    hint <> EmptyString ->
    In a (rows (db st)) ->
    link a = hint ->
    status a = pending ->
    snd (summarizer_pass prov backend st)
      = Summarized (id a) (get_ai_summary prov backend (build_prompt a)) /\
    PRIORITY_QUEUE (fst (summarizer_pass prov backend st)) = rest.
Proof.
  intros prov backend st hint rest a [_ [Hlinks _]] Hq Hne Ha Hl Hp.
  assert (select_article st = (Some a, mkState (db st) rest)) as Hsel.
  { unfold select_article. rewrite Hq. simpl.
    assert (String.eqb hint EmptyString = false) as ->
        by (apply String.eqb_neq; assumption).
    rewrite <- Hl, (select_pending_by_link_found _ _ Hlinks Ha Hp). reflexivity. }
  split.
  - rewrite (summarizer_pass_selected _ _ _ _ _ Hsel). reflexivity.
  - rewrite queue_after_pass, Hq. reflexivity.
Qed.

Lemma hinted_row_is_summarized_first_witness :
  snd (summarizer_pass "ollama" (fun _ => None)
                       (mkState seven_rows ["https://5"%string]))
  = Summarized 5 (get_ai_summary "ollama" (fun _ => None)
                    (build_prompt (mkArticle 5 "https://5" "headline"
                                     (Some "Unknown Source"%string)
                                     (Some "excerpt"%string) None None pending
                                     "__trending__" 1004))).
Proof.
  refine (proj1 (hinted_row_is_summarized_first "ollama"%string (fun _ => None)
                   (mkState seven_rows ["https://5"%string]) "https://5"%string []
                   (mkArticle 5 "https://5" "headline" (Some "Unknown Source"%string)
                              (Some "excerpt"%string) None None pending
                              "__trending__" 1004)
                   seven_rows_wf eq_refl _ _ eq_refl eq_refl)).
  - discriminate.
  - vm_compute. tauto.
Defined.

Lemma find_none_iff_filter_nil (p : article -> bool) (l : list article) :
  find p l = None <-> filter p l = [].
Proof.
  induction l as [| a l IH]; simpl; [tauto |].
  destruct (p a); [split; discriminate | exact IH].
Qed.

Lemma select_article_none_iff st :
  fst (select_article st) = None <-> pending_count (db st) = 0%nat.
Proof.
  unfold pending_count. rewrite length_zero_iff_nil, <- find_none_iff_filter_nil.
  fold (select_any_pending (db st)).
  unfold select_article. destruct (pop_priority (PRIORITY_QUEUE st)) as [hint q'].
  simpl.
  assert (forall l b, select_pending_by_link l (db st) = Some b ->
                      select_any_pending (db st) <> None) as Hby.
  { intros l b Hb Hnone. apply find_some in Hb. destruct Hb as [Hin Hc].
    apply andb_true_iff in Hc. destruct Hc as [_ Hc].
    pose proof (find_none _ _ Hnone b Hin) as H. simpl in H. congruence. }
  destruct hint as [l |]; [| tauto].
  destruct (String.eqb l EmptyString); [tauto |].
  destruct (select_pending_by_link l (db st)) as [b |] eqn:E; [| tauto].
  split; [discriminate |]. intros Hnone. exfalso. exact (Hby l b E Hnone).
Qed.

(** X14: a pass is idle exactly when the table holds no pending row; an idle
    pass leaves the table as it is. *)
Theorem pass_is_idle_iff_nothing_pending :
  forall prov backend st,
    (snd (summarizer_pass prov backend st) = Idle
     <-> pending_count (db st) = 0%nat) /\
    (snd (summarizer_pass prov backend st) = Idle ->
     db (fst (summarizer_pass prov backend st)) = db st).
Proof.
  intros prov backend st. rewrite <- select_article_none_iff.
  unfold summarizer_pass.
  destruct (select_article st) as [[a |] st0] eqn:Hsel; simpl.
  - split; [split; discriminate | discriminate].
  - split; [tauto |]. intros _. unfold select_article in Hsel.
    destruct (pop_priority (PRIORITY_QUEUE st)). inversion Hsel. reflexivity.
Qed.

Lemma pass_is_idle_iff_nothing_pending_witness :
  db (fst (summarizer_pass "ollama" (fun _ => None) finished_state))
  = db finished_state.
Proof.
  exact (proj2 (pass_is_idle_iff_nothing_pending "ollama"%string (fun _ => None)
                  finished_state) eq_refl).
Defined.

(** The table after a pass that selected a row: one update of that row. *)
Lemma table_after_pass prov backend st a st0 :
  select_article st = (Some a, st0) ->
  db (fst (summarizer_pass prov backend st))
  = store_outcome
      (if contains "Error:" (get_ai_summary prov backend (build_prompt a))
       then error else done)
      (get_ai_summary prov backend (build_prompt a)) (id a) (db st).
Proof.
  intros Hsel. rewrite (summarizer_pass_selected _ _ _ _ _ Hsel).
  destruct (select_article_pending _ _ _ Hsel) as [_ [_ Hdb]].
  unfold finalize, claim, store_outcome, mark_in_progress, update_where_id.
  simpl. rewrite Hdb. f_equal. rewrite map_map. apply map_ext. intros r.
  destruct (id r =? id a) eqn:E; simpl; rewrite E; reflexivity.
Qed.

Lemma table_after_idle_pass prov backend st st0 :
  select_article st = (None, st0) ->
  db (fst (summarizer_pass prov backend st)) = db st.
Proof.
  intros Hsel. unfold summarizer_pass. rewrite Hsel. simpl.
  unfold select_article in Hsel.
  destruct (pop_priority (PRIORITY_QUEUE st)). inversion Hsel. reflexivity.
Qed.

Lemma pending_after_update (s : enrich_status) (txt : string) (a : article) :
  s <> pending ->
  forall l,
    NoDup (map id l) ->
    (In a l -> status a = pending ->
     S (List.length (filter (fun r => status_eqb (status r) pending)
                  (map (fun r => if id r =? id a
                                 then set_status_summary s txt r else r) l)))
     = List.length (filter (fun r => status_eqb (status r) pending) l)) /\
    (~ In (id a) (map id l) ->
     map (fun r => if id r =? id a then set_status_summary s txt r else r) l = l).
Proof.
  intros Hs. induction l as [| x l IH]; intros Hnd; simpl.
  - split; [intros [] | reflexivity].
  - inversion Hnd as [| ? ? Hx Hl]; subst. destruct (IH Hl) as [IH1 IH2]. split.
    + intros [-> | Ha] Hp.
      * rewrite Z.eqb_refl. simpl. rewrite Hp. simpl.
        assert (status_eqb s pending = false) as ->.
        { destruct s; try reflexivity. congruence. }
        rewrite (IH2 Hx). reflexivity.
      * assert ((id x =? id a) = false) as ->.
        { apply Z.eqb_neq. intros Heq. apply Hx. rewrite Heq.
          apply in_map. assumption. }
        destruct (status_eqb (status x) pending); simpl;
          rewrite (IH1 Ha Hp); reflexivity.
    + intros Hn.
      assert ((id x =? id a) = false) as ->.
      { apply Z.eqb_neq. intros Heq. apply Hn. left. assumption. }
      f_equal. apply IH2. intros H. apply Hn. right. assumption.
Qed.

Lemma pass_takes_one_pending prov backend st :
  wf_table (db st) ->
  pending_count (db (fst (summarizer_pass prov backend st)))
  = (pending_count (db st) - 1)%nat.
Proof.
  intros [Hid _]. destruct (select_article st) as [[a |] st0] eqn:Hsel.
  - rewrite (table_after_pass _ _ _ _ _ Hsel).
    destruct (select_article_pending _ _ _ Hsel) as [Hin [Hp _]].
    unfold pending_count, store_outcome, update_where_id. simpl rows.
    match goal with |- context [set_status_summary ?s ?t] =>
      destruct (pending_after_update s t a) with (l := rows (db st)) as [H _];
        [destruct (contains _ _); discriminate | assumption |]
    end.
    rewrite <- (H Hin Hp). lia.
  - rewrite (table_after_idle_pass _ _ _ _ Hsel).
    assert (fst (select_article st) = None) as H0 by (rewrite Hsel; reflexivity).
    apply select_article_none_iff in H0. rewrite H0. reflexivity.
Qed.

(** X15: on a well-formed table every pass takes exactly one row out of the
    pending ones, whatever the backend does, until none is left: after n
    passes the number of pending rows is the number before minus n, and 0
    once n reaches it. *)
Theorem passes_drain_the_backlog :
  forall prov backends st,
    wf_table (db st) ->
    pending_count (db (run_passes prov backends st))
    = (pending_count (db st) - List.length backends)%nat.
Proof.
  intros prov backends. induction backends as [| b bs IH]; intros st Hwf; simpl.
  - lia.
  - rewrite IH.
    + rewrite pass_takes_one_pending by assumption. lia.
    + destruct wf_table_is_invariant as [_ H].
      destruct (H st Hwf) as [_ [Hpass _]]. apply Hpass.
Qed.

Lemma passes_drain_the_backlog_witness :
  pending_count
    (db (run_passes "ollama"
           [fun _ => None; fun _ => Some "Fine."%string; fun _ => None;
            fun _ => None; fun _ => None; fun _ => None; fun _ => None]
           (mkState seven_rows [])))
  = (pending_count seven_rows - 7)%nat.
Proof.
  apply (passes_drain_the_backlog "ollama"%string
           [fun _ => None; fun _ => Some "Fine."%string; fun _ => None;
            fun _ => None; fun _ => None; fun _ => None; fun _ => None]
           (mkState seven_rows [])).
  exact seven_rows_wf.
Defined.

(** X16: when the head of the queue names no pending row of a well-formed
    table (the row is in progress, finished, failed or gone), the pass drops
    the hint, selects by the table scan instead, and leaves every row with
    that link as it is. *)
Theorem stale_hint_is_skipped :
  forall prov backend st hint rest,
    wf_table (db st) ->
    PRIORITY_QUEUE st = hint :: rest ->
    (forall a, In a (rows (db st)) -> link a = hint -> status a <> pending) ->
    fst (select_article st) = select_any_pending (db st) /\
    PRIORITY_QUEUE (fst (summarizer_pass prov backend st)) = rest /\
    forall a, In a (rows (db st)) -> link a = hint ->
              In a (rows (db (fst (summarizer_pass prov backend st)))).
Proof.
  intros prov backend st hint rest [Hid _] Hq Hstale.
  assert (select_pending_by_link hint (db st) = None) as Hnone.
  { unfold select_pending_by_link.
    destruct (find _ (rows (db st))) as [b |] eqn:E; [| reflexivity].
    apply find_some in E. destruct E as [Hb Hc].
    apply andb_true_iff in Hc. destruct Hc as [Hl Hp].
    apply String.eqb_eq in Hl. apply status_eqb_eq in Hp.
    exfalso. exact (Hstale b Hb Hl Hp). }
  assert (fst (select_article st) = select_any_pending (db st)) as Hsel.
  { unfold select_article. rewrite Hq. simpl. rewrite Hnone.
    destruct (String.eqb hint EmptyString); reflexivity. }
  split; [exact Hsel |]. split; [rewrite queue_after_pass, Hq; reflexivity |].
  intros a Ha Hl.
  destruct (select_article st) as [[b |] st0] eqn:E.
  - rewrite (table_after_pass _ _ _ _ _ E).
    destruct (select_article_pending _ _ _ E) as [Hb [Hp _]].
    unfold store_outcome, update_where_id. simpl rows.
    apply in_map_iff. exists a. split; [| assumption].
    destruct (id a =? id b) eqn:Eid; [| reflexivity].
    apply Z.eqb_eq in Eid. exfalso.
    assert (a = b) as -> by (apply (NoDup_map_In_eq id (rows (db st))); assumption).
    exact (Hstale b Hb Hl Hp).
  - rewrite (table_after_idle_pass _ _ _ _ E). assumption.
Qed.

Lemma stale_hint_is_skipped_witness :
  PRIORITY_QUEUE (fst (summarizer_pass "ollama" (fun _ => None)
                         (mkState (db finished_state) ["https://a"%string])))
  = [].
Proof.
  refine (proj1 (proj2 (stale_hint_is_skipped "ollama"%string (fun _ => None)
                   (mkState (db finished_state) ["https://a"%string])
                   "https://a"%string [] _ eq_refl _))).
  - unfold wf_table. simpl. repeat split.
    + constructor; [intros [] | constructor].
    + constructor; [intros [] | constructor].
    + constructor; [discriminate | constructor].
  - simpl. intros a [<- | []] _. discriminate.
Defined.

(** ** What the summarizer and the startup leave alone *)

(** X17: a pass of the summarizer and the startup recovery rewrite only the
    status and summary columns: the rows, their order, and every other
    column of every row are the same afterwards. *)
Theorem content_columns_are_kept :
  forall prov backend st,
    map row_content (rows (db (fst (summarizer_pass prov backend st))))
      = map row_content (rows (db st)) /\
    map row_content (rows (db (startup_tasks st)))
      = map row_content (rows (db st)).
Proof.
  intros prov backend st. split.
  - destruct (select_article st) as [[a |] st0] eqn:Hsel.
    + rewrite (table_after_pass _ _ _ _ _ Hsel).
      unfold store_outcome, update_where_id. simpl rows. rewrite map_map.
      apply map_ext. intros r. destruct (id r =? id a); reflexivity.
    + rewrite (table_after_idle_pass _ _ _ _ Hsel). reflexivity.
  - unfold startup_tasks, reset_in_progress. simpl rows. rewrite map_map.
    apply map_ext. intros r. destruct (status_eqb (status r) in_progress); reflexivity.
Qed.

(** ** Startup recovery *)

Lemma reset_row_twice (a : article) :
  let g := fun r => if status_eqb (status r) in_progress
                    then set_status pending r else r in
  g (g a) = g a.
Proof. simpl. destruct (status a) eqn:E; simpl; rewrite ?E; reflexivity. Qed.

(** X18: after startup recovery no row is in progress; running it again
    changes nothing; and a row that was not in progress is still in the
    table, as it was. *)
Theorem startup_clears_in_progress :
  forall st,
    Forall (fun a => status a <> in_progress) (rows (db (startup_tasks st))) /\
    startup_tasks (startup_tasks st) = startup_tasks st /\
    (forall a, In a (rows (db st)) -> status a <> in_progress ->
               In a (rows (db (startup_tasks st)))).
Proof.
  intros st. unfold startup_tasks, reset_in_progress. simpl. split; [| split].
  - apply Forall_forall. intros b Hb. apply in_map_iff in Hb.
    destruct Hb as [a [<- _]].
    destruct (status a) eqn:E; simpl; rewrite ?E; discriminate.
  - f_equal. f_equal. rewrite map_map. apply map_ext. intros a.
    apply reset_row_twice.
  - intros a Ha Hs. apply in_map_iff. exists a. split; [| assumption].
    destruct (status a); try reflexivity. congruence.
Qed.

Lemma startup_clears_in_progress_witness :
  In (mkArticle 1 "https://a" "A" None (Some "x"%string) None
                (Some "Done elsewhere."%string) done "__trending__" 1000)
     (rows (db (startup_tasks finished_state))).
Proof.
  apply (proj2 (proj2 (startup_clears_in_progress finished_state))).
  - left. reflexivity.
  - discriminate.
Defined.

Lemma set_status_same (a : article) : set_status (status a) a = a.
Proof. destruct a; reflexivity. Qed.

(** X19: recovery undoes an interrupted pass.  If a pass stops right after
    its claim was committed, on a well-formed table with no row in progress
    before, the next startup gives back exactly the table the pass found. *)
Theorem recovery_undoes_an_interrupted_claim :
  forall st,
    wf_table (db st) ->
    Forall (fun a => status a <> in_progress) (rows (db st)) ->
    db (startup_tasks (after_claim st)) = db st.
Proof.
  intros st [Hid _] Hnone. rewrite Forall_forall in Hnone.
  assert (forall r, In r (rows (db st)) ->
            (if status_eqb (status r) in_progress then set_status pending r else r)
            = r) as Hreset.
  { intros r Hr. specialize (Hnone r Hr).
    destruct (status r); try reflexivity. congruence. }
  unfold after_claim. destruct (select_article st) as [[a |] st0] eqn:Hsel.
  - destruct (select_article_pending _ _ _ Hsel) as [Ha [Hp Hdb]].
    unfold startup_tasks, claim, reset_in_progress, mark_in_progress,
      update_where_id. simpl. rewrite Hdb.
    destruct (db st) as [rs sq] eqn:Edb. simpl in *. f_equal.
    rewrite map_map. rewrite <- (map_id rs) at 2. apply map_ext_in. intros r Hr.
    destruct (id r =? id a) eqn:E.
    + apply Z.eqb_eq in E.
      assert (r = a) as -> by (apply (NoDup_map_In_eq id rs); assumption).
      change (set_status pending a = a). rewrite <- Hp. apply set_status_same.
    + apply Hreset. assumption.
  - assert (db st0 = db st) as Hdb.
    { unfold select_article in Hsel.
      destruct (pop_priority (PRIORITY_QUEUE st)). inversion Hsel. reflexivity. }
    unfold startup_tasks, reset_in_progress. simpl. rewrite Hdb.
    destruct (db st) as [rs sq] eqn:Edb. simpl in *. f_equal.
    rewrite <- (map_id rs) at 2. apply map_ext_in. exact Hreset.
Qed.

Lemma recovery_undoes_an_interrupted_claim_witness :
  db (startup_tasks (after_claim hinted_state)) = db hinted_state.
Proof.
  apply (recovery_undoes_an_interrupted_claim hinted_state hinted_state_wf).
  simpl. constructor; [discriminate | constructor].
Defined.

(** ** Invariants of a run *)

Lemma ids_increase_map (g : article -> article) (l : list article) :
  (forall a, id (g a) = id a) -> ids_increase l -> ids_increase (map g l).
Proof.
  intros Hg. induction l as [| a l IH]; simpl; [tauto |].
  intros [Hall Hrest]. split; [| apply IH; assumption].
  rewrite Forall_forall in *. intros b Hb. apply in_map_iff in Hb.
  destruct Hb as [c [<- Hc]]. rewrite !Hg. apply Hall. assumption.
Qed.

Lemma ids_increase_filter (p : article -> bool) (l : list article) :
  ids_increase l -> ids_increase (filter p l).
Proof.
  induction l as [| a l IH]; simpl; [tauto |].
  intros [Hall Hrest]. destruct (p a); [| apply IH; assumption].
  simpl. split; [| apply IH; assumption].
  rewrite Forall_forall in *. intros b Hb. apply filter_In in Hb. apply Hall. tauto.
Qed.

Lemma ids_increase_app (l1 l2 : list article) :
  ids_increase l1 -> ids_increase l2 ->
  (forall x y, In x l1 -> In y l2 -> id x < id y) ->
  ids_increase (l1 ++ l2).
Proof.
  induction l1 as [| a l1 IH]; simpl; intros H1 H2 Hlt; [assumption |].
  destruct H1 as [Hall Hrest]. split.
  - apply Forall_app. split; [assumption |].
    apply Forall_forall. intros y Hy. apply Hlt; [left; reflexivity | assumption].
  - apply IH; try assumption. intros x y Hx Hy. apply Hlt; [right |]; assumption.
Qed.

Lemma ids_decrease_snoc (l : list article) (x : article) :
  ids_decrease l -> Forall (fun b => id x < id b) l -> ids_decrease (l ++ [x]).
Proof.
  induction l as [| a l IH]; simpl; intros Hd Hx.
  - split; [constructor | exact I].
  - destruct Hd as [Hall Hrest]. inversion Hx as [| ? ? Ha Hl]; subst. split.
    + apply Forall_app. split; [assumption | constructor; [assumption | constructor]].
    + apply IH; assumption.
Qed.

Lemma ids_decrease_rev (l : list article) :
  ids_increase l -> ids_decrease (rev l).
Proof.
  induction l as [| a l IH]; simpl; [tauto |].
  intros [Hall Hrest]. apply ids_decrease_snoc; [apply IH; assumption |].
  apply Forall_forall. intros b Hb. apply in_rev in Hb.
  rewrite Forall_forall in Hall. apply Hall. assumption.
Qed.

Lemma ids_decrease_parts (l1 l2 : list article) :
  ids_decrease (l1 ++ l2) -> ids_decrease l1 /\ ids_decrease l2.
Proof.
  induction l1 as [| a l1 IH]; simpl; [tauto |].
  intros [Hall Hrest]. destruct (IH Hrest) as [H1 H2].
  apply Forall_app in Hall. tauto.
Qed.

Lemma ids_decrease_slice (l : list article) (a b : Z) :
  ids_decrease l -> ids_decrease (py_slice l a b).
Proof.
  intros H. unfold py_slice. set (n := Z.to_nat _). set (m := Z.to_nat _).
  rewrite <- (firstn_skipn m l) in H. apply ids_decrease_parts in H.
  destruct H as [_ H].
  rewrite <- (firstn_skipn n (skipn m l)) in H. apply ids_decrease_parts in H.
  tauto.
Qed.

Lemma load_articles_keeps_rows_in_order key now clock feed d :
  wf_table d ->
  ids_increase (rows d) ->
  Forall summary_matches_status (rows d) ->
  ids_increase (rows (fst (load_articles key now clock feed d))) /\
  Forall summary_matches_status (rows (fst (load_articles key now clock feed d))).
Proof.
  intros [_ [_ Hseq]] Hinc Hsum. unfold load_articles.
  destruct (is_stale key now d); [| simpl; tauto].
  destruct (fetch_and_cache_news key clock feed d) as [d' [served |]] eqn:E; simpl.
  - destruct (committed_refresh_rows _ _ _ _ _ _ E) as [added [R [_ [_ [_ [I F]]]]]].
    rewrite R. unfold delete_topic. simpl rows. rewrite Forall_forall in F, Hseq.
    split.
    + apply ids_increase_app; [apply ids_increase_filter; assumption | assumption |].
      intros x y Hx Hy. apply filter_In in Hx. destruct Hx as [Hx _].
      specialize (Hseq x Hx). destruct (F y Hy) as [_ [_ [_ [_ Hnew]]]]. lia.
    + apply Forall_app. split.
      * rewrite Forall_forall in *. intros x Hx. apply filter_In in Hx.
        apply Hsum. tauto.
      * apply Forall_forall. intros y Hy. destruct (F y Hy) as [Hs [_ [Hn _]]].
        unfold summary_matches_status. rewrite Hs. assumption.
  - rewrite (fetch_and_cache_news_raised _ _ _ _ _ E). tauto.
Qed.

Lemma queue_after_request q page_arg now clock feed st :
  NoDup (PRIORITY_QUEUE st) ->
  NoDup (PRIORITY_QUEUE (fst (get_news q page_arg now clock feed st))).
Proof.
  intros Hq. unfold get_news.
  destruct (load_articles (request_cache_key q) now clock feed (db st))
    as [d' [articles |]]; [| assumption].
  destruct (paginate articles (request_page page_arg)) as [items more]. simpl.
  unfold update_priority_queue. apply mark_on_screen_NoDup.
  destruct (request_page page_arg =? 1); [constructor | assumption].
Qed.

Lemma step_keeps_the_invariant prov (e : event) (st : state) :
  state_invariant st -> state_invariant (step prov e st).
Proof.
  intros [Hwf [Hinc [Hsum Hq]]].
  destruct wf_table_is_invariant as [_ Hkeep].
  destruct (Hkeep st Hwf) as [Wstart [Wpass Wreq]].
  destruct e as [| q page_arg now clock feed | backend]; simpl step.
  - split; [exact Wstart |]. unfold startup_tasks, reset_in_progress. simpl.
    split; [| split; [| assumption]].
    + apply ids_increase_map; [| assumption].
      intros a. destruct (status_eqb (status a) in_progress); reflexivity.
    + rewrite Forall_forall in *. intros b Hb. apply in_map_iff in Hb.
      destruct Hb as [a [<- Ha]]. specialize (Hsum a Ha).
      unfold summary_matches_status in *.
      destruct (status a) eqn:E; simpl; rewrite ?E; assumption.
  - split; [apply Wreq |]. rewrite db_after_get_news.
    destruct (load_articles_keeps_rows_in_order (request_cache_key q) now clock feed
                (db st) Hwf Hinc Hsum) as [H1 H2].
    split; [assumption |]. split; [assumption |].
    apply queue_after_request. assumption.
  - split; [apply Wpass |].
    assert (NoDup (PRIORITY_QUEUE (fst (summarizer_pass prov backend st)))) as Hq'.
    { rewrite queue_after_pass. destruct (PRIORITY_QUEUE st); simpl; [constructor |].
      inversion Hq; assumption. }
    destruct (select_article st) as [[a |] st0] eqn:Hsel.
    + rewrite (table_after_pass _ _ _ _ _ Hsel).
      unfold store_outcome, update_where_id. simpl rows.
      split; [| split; [| assumption]].
      * apply ids_increase_map; [| assumption].
        intros r. destruct (id r =? id a); reflexivity.
      * rewrite Forall_forall in *. intros b Hb. apply in_map_iff in Hb.
        destruct Hb as [r [<- Hr]]. destruct (id r =? id a); [| apply Hsum; assumption].
        unfold summary_matches_status. simpl.
        destruct (contains "Error:" (get_ai_summary prov backend (build_prompt a)))
          eqn:Ec; eexists; split; try reflexivity; assumption.
    + rewrite (table_after_idle_pass _ _ _ _ Hsel). tauto.
Qed.

(** X20: the state the process starts from satisfies, and every startup
    recovery, request and pass keeps, that the table is well formed (distinct
    ids not above the counter, distinct links), that its rows are in
    increasing id order, that the summary of each row agrees with its status
    (none while pending or in progress, a text without the error marker when
    done, a text with it when failed), and that the queue holds no link
    twice. *)
Theorem run_keeps_the_invariant :
  state_invariant initial_state /\
  forall prov es st, state_invariant st -> state_invariant (run prov es st).
Proof.
  split.
  - split; [exact empty_table_wf |]. simpl.
    split; [exact I |]. split; constructor.
  - intros prov es. unfold run. induction es as [| e es IH]; intros st H; simpl.
    + assumption.
    + apply IH. apply step_keeps_the_invariant. assumption.
Qed.

Lemma run_keeps_the_invariant_witness :
  state_invariant
    (run "ollama"
         [Startup;
          Request None None 0 (fun k => 1000 + Z.of_nat k)
                  (Parsed false [sample_entry "https://1"; sample_entry "https://2"]);
          Pass (fun _ => Some "Fine."%string);
          Pass (fun _ => None)]
         initial_state).
Proof.
  apply (proj2 run_keeps_the_invariant). apply (proj1 run_keeps_the_invariant).
Defined.

(** X21: in a state that satisfies the invariant, the articles of an answered
    request come newest first: their ids strictly decrease along the page. *)
Theorem page_is_newest_first :
  forall q page_arg now clock feed st st1 items more,
    state_invariant st ->
    get_news q page_arg now clock feed st = (st1, Ok (items, more)) ->
    ids_decrease items.
Proof.
  intros q page_arg now clock feed st st1 items more [Hwf [Hinc [Hsum _]]] Hreq.
  apply get_news_ok_inv in Hreq. destruct Hreq as [d' [articles [Hload [Hpg _]]]].
  destruct (load_articles_keeps_rows_in_order (request_cache_key q) now clock feed
              (db st) Hwf Hinc Hsum) as [Hinc' _].
  rewrite Hload in Hinc'. simpl in Hinc'.
  rewrite (load_articles_serves_the_table _ _ _ _ _ _ _ Hload) in Hpg.
  unfold paginate in Hpg. inversion Hpg. apply ids_decrease_slice.
  unfold select_topic_desc. apply ids_decrease_rev. apply ids_increase_filter.
  assumption.
Qed.

Lemma initial_state_invariant : state_invariant initial_state.
Proof.
  split; [exact empty_table_wf |]. simpl.
  split; [exact I |]. split; constructor.
Qed.

Lemma page_is_newest_first_witness :
  ids_decrease
    (served_page
       (snd (get_news None (Some "2"%string) 1010 (fun _ => 1010) ParseRaised
               (step "ollama"
                     (Request None None 0 (fun k => 1000 + Z.of_nat k)
                        (Parsed false (map sample_entry
                           ["https://1"; "https://2"; "https://3"; "https://4";
                            "https://5"; "https://6"; "https://7"]%string)))
                     initial_state)))).
Proof.
  set (e := Request None None 0 (fun k => 1000 + Z.of_nat k)
              (Parsed false (map sample_entry
                 ["https://1"; "https://2"; "https://3"; "https://4";
                  "https://5"; "https://6"; "https://7"]%string))).
  set (st := step "ollama" e initial_state).
  set (r := get_news None (Some "2"%string) 1010 (fun _ => 1010) ParseRaised st).
  assert (r = (fst r, Ok (served_page (snd r), false))) as H by reflexivity.
  exact (page_is_newest_first None (Some "2"%string) 1010 (fun _ => 1010) ParseRaised
           st (fst r) (served_page (snd r)) false
           (step_keeps_the_invariant "ollama"%string e initial_state
                                     initial_state_invariant) H).
Defined.

(** ** The feed address *)

Lemma unquote_head_quote_byte (c : ascii) (rest : string) :
  unquote_head (quote_byte c ++ rest) = Some (c, rest).
Proof.
  destruct c as [[] [] [] [] [] [] [] []]; reflexivity.
Qed.

Lemma text_append_assoc (a b c : string) :
  ((a ++ b) ++ c)%string = (a ++ (b ++ c))%string.
Proof. induction a as [| x a IH]; simpl; [reflexivity | rewrite IH; reflexivity]. Qed.

Lemma quote_plus_before_a_separator (suffix : string) :
  unquote_head suffix = None ->
  forall s1 s2,
    (quote_plus s1 ++ suffix)%string = (quote_plus s2 ++ suffix)%string -> s1 = s2.
Proof.
  intros Hsuf. induction s1 as [| c1 s1 IH]; intros [| c2 s2] H; simpl in H.
  - reflexivity.
  - exfalso. apply (f_equal unquote_head) in H.
    rewrite text_append_assoc in H.
    rewrite Hsuf, unquote_head_quote_byte in H. discriminate.
  - exfalso. apply (f_equal unquote_head) in H.
    rewrite text_append_assoc in H.
    rewrite Hsuf, unquote_head_quote_byte in H. discriminate.
  - apply (f_equal unquote_head) in H.
    rewrite !text_append_assoc in H.
    rewrite !unquote_head_quote_byte in H. inversion H as [[Hc Hrest]].
    f_equal. apply IH. assumption.
Qed.

(** X22: the feed address determines the topic: two cache keys with the same
    address are the same key, so no two topics are ever fetched from one
    address (the default topic has the address without a query). *)
Theorem rss_url_is_injective :
  forall key1 key2, rss_url key1 = rss_url key2 -> key1 = key2.
Proof.
  intros key1 key2. unfold rss_url.
  destruct (String.eqb key1 "__trending__") eqn:E1;
    destruct (String.eqb key2 "__trending__") eqn:E2; intros H.
  - apply String.eqb_eq in E1, E2. congruence.
  - simpl in H. discriminate H.
  - simpl in H. discriminate H.
  - simpl in H.
    apply (quote_plus_before_a_separator "&hl=en-IN&gl=IN&ceid=IN:en"); [reflexivity |].
    repeat match type of H with
           | String _ _ = String _ _ => apply (f_equal (fun s => match s with
                                                                 | String _ t => t
                                                                 | EmptyString => s
                                                                 end)) in H; cbv beta iota in H
           end.
    exact H.
Qed.

Lemma rss_url_is_injective_witness : "Cricket"%string = "Cricket"%string.
Proof. apply rss_url_is_injective. reflexivity. Defined.

Lemma quote_byte_characters (c : ascii) :
  forallb (fun x => is_always_safe x || Ascii.eqb x "+"%char || Ascii.eqb x "%"%char)
          (list_ascii_of_string (quote_byte c)) = true.
Proof.
  destruct c as [[] [] [] [] [] [] [] []]; reflexivity.
Qed.

Lemma characters_of_append (a b : string) :
  list_ascii_of_string (a ++ b) = list_ascii_of_string a ++ list_ascii_of_string b.
Proof. induction a as [| x a IH]; simpl; [reflexivity | rewrite IH; reflexivity]. Qed.

(** X23: the quoted key consists of always-safe characters, [+] and [%]
    only; in particular it holds no [&], [=], [#], [?], [/] or space, so the
    topic text cannot end the query parameter or add another one to the
    feed address. *)
Theorem quoted_key_has_no_separator :
  forall s c,
    In c (list_ascii_of_string (quote_plus s)) ->
    (is_always_safe c = true \/ c = "+"%char \/ c = "%"%char) /\
    c <> "&"%char /\ c <> "="%char /\ c <> "#"%char /\ c <> "?"%char /\
    c <> "/"%char /\ c <> " "%char.
Proof.
  intros s c Hin.
  assert (is_always_safe c = true \/ c = "+"%char \/ c = "%"%char) as H.
  { induction s as [| x s IH]; simpl in Hin; [contradiction |].
    rewrite characters_of_append in Hin. apply in_app_or in Hin.
    destruct Hin as [Hin | Hin]; [| apply IH; assumption].
    pose proof (quote_byte_characters x) as Hx.
    rewrite forallb_forall in Hx. specialize (Hx c Hin).
    apply orb_true_iff in Hx. destruct Hx as [Hx | Hx].
    - apply orb_true_iff in Hx. destruct Hx as [Hx | Hx]; [left; assumption |].
      right. left. apply Ascii.eqb_eq. assumption.
    - right. right. apply Ascii.eqb_eq. assumption. }
  split; [exact H |].
  repeat split; intros ->; destruct H as [H | [H | H]]; discriminate H.
Qed.

Lemma quoted_key_has_no_separator_witness :
  "+"%char <> "&"%char.
Proof.
  refine (proj1 (proj2 (quoted_key_has_no_separator "a b"%string "+"%char _))).
  simpl. right. left. reflexivity.
Defined.

(** ** What a refresh stores *)

Lemma insert_or_ignore_cases l t src sm img s tp ts d :
  (has_link l d = true /\
   rows (insert_or_ignore l t src sm img s tp ts d) = rows d) \/
  (has_link l d = false /\
   rows (insert_or_ignore l t src sm img s tp ts d)
   = rows d ++ [mkArticle (sqlite_sequence d + 1) l t src sm img None s tp ts]).
Proof.
  unfold insert_or_ignore. cbv zeta.
  destruct (has_link l d); [left | right]; split; reflexivity.
Qed.

(** Each row the loop adds carries the link of an entry and a reading of the
    clock taken at or after the loop's current iteration. *)
Lemma insert_entries_trace key clock (es : list entry) :
  forall k d d',
    insert_entries key clock k es d = Ok d' ->
    exists added,
      rows d' = rows d ++ added /\
      Forall (fun a => In (Some (link a)) (map entry_link es) /\
                       exists j, (k <= j)%nat /\ fetch_timestamp a = clock j) added /\
      ((forall i j, (i <= j)%nat -> clock i <= clock j) -> timestamps_ascend added).
Proof.
  induction es as [| e es IH]; intros k d d' H; simpl in H.
  - inversion H; subst. exists []. rewrite app_nil_r.
    split; [reflexivity |]. split; [constructor | intros _; exact I].
  - destruct (entry_values e) as [[[[[l t] src] sm] img] |] eqn:Ev; [| discriminate].
    pose proof (entry_values_link _ _ _ _ _ _ Ev) as Hl.
    destruct (IH _ _ _ H) as [add2 [R2 [F2 A2]]].
    assert (Forall (fun a => In (Some (link a)) (map entry_link (e :: es)) /\
                             exists j, (k <= j)%nat /\ fetch_timestamp a = clock j)
                   add2) as F2'.
    { eapply Forall_impl; [| exact F2]. simpl. intros a [Ha [j [Hj Ht]]].
      split; [right; assumption |]. exists j. split; [lia | assumption]. }
    destruct (insert_or_ignore_cases l t src sm img pending key (clock k) d)
      as [[_ Hsame] | [_ Hnew]].
    + rewrite Hsame in R2. exists add2. split; [assumption |].
      split; [assumption | assumption].
    + rewrite Hnew, <- app_assoc in R2. eexists. split; [exact R2 |]. split.
      * constructor; [| assumption]. simpl. split; [left; assumption |].
        exists k. split; [lia | reflexivity].
      * intros Hmono. simpl. split; [| apply A2; assumption].
        eapply Forall_impl; [| exact F2]. simpl. intros a [_ [j [Hj ->]]].
        apply Hmono. lia.
Qed.

(** Entries with distinct links, none of them in the table, are all stored,
    in feed order. *)
Lemma insert_entries_all_new key clock (ls : list string) :
  forall es k d d',
    map entry_link es = map Some ls ->
    NoDup ls ->
    (forall l, In l ls -> ~ In l (map link (rows d))) ->
    insert_entries key clock k es d = Ok d' ->
    map link (rows d') = map link (rows d) ++ ls.
Proof.
  induction ls as [| l ls IH]; intros es k d d' Hes Hnd Hfresh H.
  - destruct es; [| discriminate]. simpl in H. inversion H.
    rewrite app_nil_r. reflexivity.
  - destruct es as [| e es]; [discriminate |]. simpl in Hes, H.
    inversion Hes as [[Hl Hrest]]. inversion Hnd as [| ? ? Hnot Hnd']; subst.
    destruct (entry_values e) as [[[[[l' t] src] sm] img] |] eqn:Ev; [| discriminate].
    pose proof (entry_values_link _ _ _ _ _ _ Ev) as Hl'.
    assert (l' = l) as -> by congruence.
    destruct (insert_or_ignore_cases l t src sm img pending key (clock k) d)
      as [[Hhas _] | [_ Hnew]].
    + exfalso. apply has_link_In in Hhas. apply (Hfresh l); [left; reflexivity |].
      assumption.
    + assert (forall x, In x ls ->
                ~ In x (map link (rows (insert_or_ignore l t src sm img pending key
                                                         (clock k) d)))) as Hfresh'.
      { intros x Hx Hin. rewrite Hnew, map_app in Hin. apply in_app_or in Hin.
        destruct Hin as [Hin | [<- | []]].
        - apply (Hfresh x); [right |]; assumption.
        - contradiction. }
      rewrite (IH es _ _ _ Hrest Hnd' Hfresh' H).
      rewrite Hnew, map_app, <- app_assoc. reflexivity.
Qed.

(** X24: the links a committed refresh stores for its topic are exactly the
    links of the ingested entries that no row of another topic holds.  An
    entry whose link is already stored under another topic is left out of
    the refreshed topic. *)
Theorem refresh_stores_the_free_links :
  forall key clock bozo entries d d' served,
    wf_table d ->
    fetch_and_cache_news key clock (Parsed bozo entries) d = (d', Ok served) ->
    forall l,
      In l (map link (topic_rows key d')) <->
      In (Some l) (map entry_link (firstn FEED_FETCH_COUNT entries)) /\
      (forall b, In b (rows d) -> link b = l -> topic b = key).
Proof.
  intros key clock bozo entries d d' served Hwf Hfetch l.
  destruct (fetch_and_cache_news_commit _ _ _ _ _ _ Hfetch)
    as [bozo' [entries' [added0 [Hfeed [_ [_ [L W]]]]]]].
  inversion Hfeed; subst bozo' entries'. clear Hfeed.
  destruct (W Hwf) as [_ [Hlinks _]].
  destruct (committed_refresh_rows _ _ _ _ _ _ Hfetch)
    as [added [R [Htopic [_ [_ [_ F]]]]]].
  assert (forall b, In b (rows d) -> topic b <> key -> In b (rows d')) as Hkept.
  { intros b Hb Ht. rewrite R. apply in_or_app. left.
    unfold delete_topic. simpl. apply filter_In. split; [assumption |].
    apply negb_true_iff. apply String.eqb_neq. assumption. }
  pose proof Hfetch as Hloop. unfold fetch_and_cache_news in Hloop.
  destruct (insert_entries key clock 0 (firstn FEED_FETCH_COUNT entries)
                           (delete_topic key d)) as [d1 |] eqn:E; [| discriminate].
  assert (d1 = d') as -> by congruence. clear Hloop.
  destruct (insert_entries_trace _ _ _ _ _ _ E) as [added' [R' [T _]]].
  assert (added' = added) as -> by (rewrite R in R'; apply app_inv_head in R'; congruence).
  rewrite Htopic. rewrite Forall_forall in F, T. split.
  - intros Hin. apply in_map_iff in Hin. destruct Hin as [a [Hla Ha]].
    split; [rewrite <- Hla; apply (T a Ha) |].
    intros b Hb Hlb. destruct (string_dec (topic b) key) as [Ht | Ht];
      [assumption | exfalso].
    assert (a = b) as ->.
    { apply (NoDup_map_In_eq link (rows d')); try assumption.
      - rewrite R. apply in_or_app. right. assumption.
      - apply Hkept; assumption.
      - congruence. }
    destruct (F b Ha) as [_ [Hk _]]. contradiction.
  - intros [Hentry Hown]. specialize (L l Hentry).
    apply in_map_iff in L. destruct L as [a [Hla Ha]].
    apply in_map_iff. exists a. split; [assumption |].
    rewrite R in Ha. apply in_app_or in Ha. destruct Ha as [Ha | Ha]; [| assumption].
    exfalso. unfold delete_topic in Ha. simpl in Ha. apply filter_In in Ha.
    destruct Ha as [Ha Ht]. specialize (Hown a Ha Hla).
    rewrite Hown, String.eqb_refl in Ht. discriminate.
Qed.

Lemma refresh_stores_the_free_links_witness :
  In "https://b"%string (map link (topic_rows "X" (fst three_items))) <->
  In (Some "https://b"%string)
     (map entry_link
          (firstn FEED_FETCH_COUNT
                  [sample_entry "https://a"; sample_entry "https://b";
                   sample_entry "https://a"])) /\
  (forall b, In b (rows empty_table) -> link b = "https://b"%string ->
             topic b = "X"%string).
Proof.
  exact (refresh_stores_the_free_links "X"%string (fun k => 100 + Z.of_nat k) false
           [sample_entry "https://a"; sample_entry "https://b";
            sample_entry "https://a"]
           empty_table (fst three_items) (rev (rows (fst three_items)))
           empty_table_wf eq_refl "https://b"%string).
Defined.

(** X25: a refresh serves the feed in reverse.  When the ingested entries
    have distinct links that no row of another topic holds, the list the
    refresh returns carries their links in the opposite of the feed order:
    the first entry of the feed comes last. *)
Theorem refresh_serves_the_feed_in_reverse :
  forall key clock bozo entries d d' served ls,
    map entry_link (firstn FEED_FETCH_COUNT entries) = map Some ls ->
    NoDup ls ->
    (forall l b, In l ls -> In b (rows d) -> link b = l -> topic b = key) ->
    fetch_and_cache_news key clock (Parsed bozo entries) d = (d', Ok served) ->
    map link served = rev ls.
Proof.
  intros key clock bozo entries d d' served ls Hes Hnd Hown Hfetch.
  destruct (committed_refresh_rows _ _ _ _ _ _ Hfetch)
    as [added [R [_ [_ [Hserved _]]]]].
  pose proof Hfetch as Hloop. unfold fetch_and_cache_news in Hloop.
  destruct (insert_entries key clock 0 (firstn FEED_FETCH_COUNT entries)
                           (delete_topic key d)) as [d1 |] eqn:E; [| discriminate].
  assert (d1 = d') as -> by congruence. clear Hloop.
  assert (map link (rows d') = map link (rows (delete_topic key d)) ++ ls) as Hall.
  { apply (insert_entries_all_new key clock ls (firstn FEED_FETCH_COUNT entries)
             0%nat (delete_topic key d) d' Hes Hnd); [| exact E].
    intros l Hl Hin. apply in_map_iff in Hin. destruct Hin as [b [Hlb Hb]].
    unfold delete_topic in Hb. simpl in Hb. apply filter_In in Hb.
    destruct Hb as [Hb Ht]. rewrite (Hown l b Hl Hb Hlb), String.eqb_refl in Ht.
    discriminate. }
  rewrite R, map_app in Hall. apply app_inv_head in Hall.
  rewrite Hserved, map_rev, Hall. reflexivity.
Qed.

Lemma refresh_serves_the_feed_in_reverse_witness :
  map link (rev (rows seven_rows))
  = rev ["https://1"; "https://2"; "https://3"; "https://4";
         "https://5"; "https://6"; "https://7"]%string.
Proof.
  refine (refresh_serves_the_feed_in_reverse "__trending__"%string
            (fun k => 1000 + Z.of_nat k) false
            (map sample_entry
               ["https://1"; "https://2"; "https://3"; "https://4";
                "https://5"; "https://6"; "https://7"]%string)
            empty_table seven_rows (rev (rows seven_rows))
            ["https://1"; "https://2"; "https://3"; "https://4";
             "https://5"; "https://6"; "https://7"]%string
            eq_refl _ _ eq_refl).
  - repeat (constructor; [simpl; intuition discriminate |]). constructor.
  - intros l b _ [].
Defined.

(** X26: when the clock never goes back during a refresh, the rows the
    refresh stores for the topic have fetch times that do not decrease in
    insertion order, and the staleness test of the topic then compares the
    largest fetch time of the topic with the expiration window. *)
Theorem refresh_with_a_steady_clock :
  forall key clock feed d d' served,
    (forall i j, (i <= j)%nat -> clock i <= clock j) ->
    fetch_and_cache_news key clock feed d = (d', Ok served) ->
    timestamps_ascend (topic_rows key d') /\
    forall now,
      is_stale key now d' = true <->
      topic_rows key d' = [] \/
      exists a l, topic_rows key d' = a :: l /\
                  now - max_fetch_timestamp a l > CACHE_EXPIRATION_SECONDS.
Proof.
  intros key clock feed d d' served Hmono Hfetch.
  destruct (committed_refresh_rows _ _ _ _ _ _ Hfetch) as [added [R [Htopic _]]].
  pose proof Hfetch as Hloop. unfold fetch_and_cache_news in Hloop.
  destruct feed as [| bozo entries]; [discriminate |].
  destruct (insert_entries key clock 0 (firstn FEED_FETCH_COUNT entries)
                           (delete_topic key d)) as [d1 |] eqn:E; [| discriminate].
  assert (d1 = d') as -> by congruence. clear Hloop.
  destruct (insert_entries_trace _ _ _ _ _ _ E) as [added' [R' [_ A]]].
  assert (added' = added) as -> by (rewrite R in R'; apply app_inv_head in R'; congruence).
  assert (timestamps_ascend (topic_rows key d')) as Hasc
      by (rewrite Htopic; apply A; assumption).
  split; [exact Hasc |].
  intros now. rewrite is_stale_latest. split.
  - intros [H | [a [l [Eq H]]]]; [left; assumption |].
    right. exists a, l. split; [assumption |].
    rewrite Eq in Hasc. rewrite (max_of_ascending l a Hasc). assumption.
  - intros [H | [a [l [Eq H]]]]; [left; assumption |].
    right. exists a, l. split; [assumption |].
    rewrite Eq in Hasc. rewrite <- (max_of_ascending l a Hasc). assumption.
Qed.

Lemma refresh_with_a_steady_clock_witness :
  timestamps_ascend (topic_rows "__trending__" seven_rows).
Proof.
  refine (proj1 (refresh_with_a_steady_clock "__trending__"%string
                   (fun k => 1000 + Z.of_nat k)
                   (Parsed false (map sample_entry
                      ["https://1"; "https://2"; "https://3"; "https://4";
                       "https://5"; "https://6"; "https://7"]%string))
                   empty_table seven_rows (rev (rows seven_rows)) _ eq_refl)).
  intros i j Hij. lia.
Defined.

(** ** The library models on sample inputs *)

(** [int] on texts with Unicode digits and white space, with the separators
    FS..US that [str.strip] drops and [int] does not, and at the digit limit. *)
Example py_int_samples :
  py_int " 12 " = Some 12 /\
  py_int "-3" = Some (-3) /\
  py_int "1_000" = Some 1000 /\
  py_int "1__0" = None /\
  py_int "+ 1" = None /\
  py_int "" = None /\
  py_int (String (ascii_of_nat 28) "2") = None /\
  py_int (String (ascii_of_nat 239) (String (ascii_of_nat 188)
            (String (ascii_of_nat 146) EmptyString))) = Some 2 /\
  py_int (String (ascii_of_nat 194) (String (ascii_of_nat 160) "2")) = Some 2 /\
  (exists n, py_int (String.concat EmptyString (repeat "7"%string 4300)) = Some n) /\
  py_int (String.concat EmptyString (repeat "7"%string 4301)) = None.
Proof.
  repeat split; try (vm_compute; reflexivity).
  eexists. vm_compute. reflexivity.
Qed.

(** [str.strip] drops FS and the no-break space, not the zero-width space. *)
Example strip_samples :
  strip (String (ascii_of_nat 28) (String (ascii_of_nat 194)
           (String (ascii_of_nat 160) " a b  "))) = "a b"%string /\
  strip (String (ascii_of_nat 226) (String (ascii_of_nat 128)
           (String (ascii_of_nat 139) "  "))) =
  String (ascii_of_nat 226) (String (ascii_of_nat 128)
    (String (ascii_of_nat 139) EmptyString)).
Proof. split; vm_compute; reflexivity. Qed.

(** The ids of a feed with links a, b, a, c: the ignored insert uses up 3. *)
Example ignored_insert_uses_an_id :
  let d := fst (fetch_and_cache_news "X" (fun _ => 0)
                  (Parsed false [sample_entry "a"; sample_entry "b";
                                 sample_entry "a"; sample_entry "c"])
                  empty_table) in
  map id (rows d) = [1; 2; 4] /\ sqlite_sequence d = 4.
Proof. split; reflexivity. Qed.
